(** * sslcerts (vehub/ca-bundle): the Go certificate extractor, [main.go]

    A shallow embedding of the target resolver ([parseTarget]), of the
    STARTTLS negotiation ([getTLSCertificatesWithSTARTTLS] and its callers),
    of the file naming policy ([generateCertFilename], [sanitizeFilename])
    and of the two writers ([createCertificateBundle],
    [createIndividualCertificates]), with the properties of the
    specification stated over it.

    Go strings are byte sequences: they are modelled as [string], whose
    characters ([ascii]) are the bytes. *)

From Stdlib Require Import ZArith NArith String Ascii.
From stdpp Require Import gmap strings list pretty.

Local Open Scope string_scope.
Local Open Scope list_scope.

(** ** Bytes and strings as Go sees them *)

Module GoString.

Definition code (b : ascii) : N := N_of_ascii b.

Definition between (lo hi : N) (b : ascii) : bool :=
  ((lo <=? code b) && (code b <=? hi))%N.

(** [s[n:]] for [n <= len(s)]. *)
Fixpoint sliceFrom (n : nat) (s : string) : string :=
  match n, s with
  | S k, String _ rest => sliceFrom k rest
  | _, _ => s
  end.

(** [strings.HasPrefix(s, p)]. *)
Fixpoint HasPrefix (s p : string) {struct p} : bool :=
  match p, s with
  | EmptyString, _ => true
  | String a p', String b s' => if decide (a = b) then HasPrefix s' p' else false
  | String _ _, EmptyString => false
  end.

(** [strings.TrimPrefix(s, p)]. *)
Definition TrimPrefix (s p : string) : string :=
  if HasPrefix s p then sliceFrom (String.length p) s else s.

(** [strings.Contains(s, sub)]: some suffix of [s] starts with [sub]. *)
Fixpoint Contains (s sub : string) : bool :=
  HasPrefix s sub ||
  match s with
  | EmptyString => false
  | String _ rest => Contains rest sub
  end.

(** [strings.SplitN(s, sep, 2)] for a non-empty [sep] that occurs in [s]:
    the text before the first occurrence and the text after it.  Both
    call sites are guarded by [Contains]; without an occurrence the whole
    string is the first part. *)
Fixpoint cut (s sep : string) : string * string :=
  if HasPrefix s sep then (EmptyString, sliceFrom (String.length sep) s)
  else match s with
       | EmptyString => (EmptyString, EmptyString)
       | String b rest => let '(l, r) := cut rest sep in (String b l, r)
       end.

(** [s[:strings.Index(s, sep)]] when [sep] occurs in [s], else [s]:
    the way [parseTarget] removes a path. *)
Definition before (s sep : string) : string :=
  if Contains s sep then fst (cut s sep) else s.

(** Everything up to the last occurrence of byte [c], and everything
    after it; [None] when [c] does not occur
    ([bytealg.LastIndexByteString]). *)
Fixpoint splitLast (c : ascii) (s : string) : option (string * string) :=
  match s with
  | EmptyString => None
  | String b rest =>
      match splitLast c rest with
      | Some (l, r) => Some (String b l, r)
      | None => if decide (b = c) then Some (EmptyString, rest) else None
      end
  end.

(** [bytealg.IndexByteString(s, c)]. *)
Fixpoint IndexByte (c : ascii) (s : string) : option nat :=
  match s with
  | EmptyString => None
  | String b rest =>
      if decide (b = c) then Some 0
      else S <$> IndexByte c rest
  end.

Fixpoint sliceTo (n : nat) (s : string) : string :=
  match n, s with
  | S k, String b rest => String b (sliceTo k rest)
  | _, _ => EmptyString
  end.

(** Width in bytes of the first rune of a non-empty string, as
    [utf8.DecodeRuneInString] reports it: the length of a well-formed
    UTF-8 sequence, and 1 for a byte that starts none
    ([utf8.RuneError], width 1). *)
Definition rune_width (s : string) : nat :=
  match s with
  | EmptyString => 0
  | String b0 tl =>
      if (code b0 <? 128)%N then 1
      else if between 194 223 b0 then
        match tl with
        | String b1 _ => if between 128 191 b1 then 2 else 1
        | _ => 1
        end
      else if between 224 239 b0 then
        let '(lo, hi) := if (code b0 =? 224)%N then (160, 191)%N
                         else if (code b0 =? 237)%N then (128, 159)%N
                         else (128, 191)%N in
        match tl with
        | String b1 (String b2 _) =>
            if between lo hi b1 && between 128 191 b2 then 3 else 1
        | _ => 1
        end
      else if between 240 244 b0 then
        let '(lo, hi) := if (code b0 =? 240)%N then (144, 191)%N
                         else if (code b0 =? 244)%N then (128, 143)%N
                         else (128, 191)%N in
        match tl with
        | String b1 (String b2 (String b3 _)) =>
            if between lo hi b1 && between 128 191 b2 && between 128 191 b3
            then 4 else 1
        | _ => 1
        end
      else 1
  end.

End GoString.

Import GoString.

(** ** Certificates ([x509.Certificate], the fields the program reads) *)

Record Certificate := {
  Raw : string;              (* DER bytes *)
  CommonName : string;       (* Subject.CommonName *)
  DNSNames : list string
}.

(** ** The naming policy *)

(** The characters the class [[^a-zA-Z0-9\-\._]] does NOT match. *)
Definition allowed (b : ascii) : bool :=
  between 97 122 b || between 65 90 b || between 48 57 b ||
  (code b =? 45)%N || (code b =? 46)%N || (code b =? 95)%N.

(** [re.ReplaceAllString(name, "_")] for the one-rune class above: every
    rune outside the class becomes one underscore.  [skip] counts the
    remaining bytes of a rune that has just been replaced. *)
Fixpoint replaceAll (skip : nat) (s : string) : string :=
  match s with
  | EmptyString => EmptyString
  | String b rest =>
      match skip with
      | S k => replaceAll k rest
      | O =>
          if allowed b then String b (replaceAll 0 rest)
          else String "_" (replaceAll (rune_width s - 1) rest)
      end
  end.

Definition sanitizeFilename (name : string) : string :=
  let cleaned := replaceAll 0 name in
  let cleaned := TrimPrefix cleaned "*." in
  cleaned.

Definition generateCertFilename (cert : Certificate) (index : nat) : string :=
  if negb (String.eqb (CommonName cert) "") then
    sanitizeFilename (CommonName cert) +:+ ".crt"
  else
    match DNSNames cert with
    | d :: _ => sanitizeFilename d +:+ ".crt"
    | [] => "cert_" +:+ pretty index +:+ ".crt"
    end.

(** ** Errors and results *)

Inductive NumError := ErrSyntax | ErrRange.

(** Go [error] values, by the call that makes them. *)
Inductive error :=
| AddrError (why addr : string)        (* net.SplitHostPort *)
| Errorf (msg : string)                (* fmt.Errorf(msg) and fmt.Errorf(msg + "%s", ...) *)
| Wrap (msg : string) (inner : error)  (* fmt.Errorf(msg + ": %v", err) *)
| EnvError (op : nat).                 (* returned by the network, TLS or file system *)

Inductive res (A : Type) :=
| Ok (a : A)
| Err (e : error).
Arguments Ok {A} a.
Arguments Err {A} e.

Definition is_ok {A} (r : res A) : bool :=
  match r with Ok _ => true | Err _ => false end.

(** ** [strconv.Atoi] (64-bit [int]: the released binaries are amd64 and arm64) *)

Module strconv.

Definition maxUint64 : Z := 2 ^ 64 - 1.
Definition cutoff10 : Z := maxUint64 / 10 + 1.

Definition digit (c : ascii) : Z := Z.of_N (code c) - 48.

(** The loop of [ParseUint(s, 10, 64)].  In base 10 an underscore and a
    letter are syntax errors like any other non-digit. *)
Fixpoint ParseUint_loop (n : Z) (s : string) : NumError + Z :=
  match s with
  | EmptyString => inr n
  | String c rest =>
      if between 48 57 c then
        if (cutoff10 <=? n)%Z then inl ErrRange
        else
          let n := (n * 10)%Z in
          let n1 := ((n + digit c) mod 2 ^ 64)%Z in
          if ((n1 <? n) || (maxUint64 <? n1))%Z then inl ErrRange
          else ParseUint_loop n1 rest
      else inl ErrSyntax
  end.

Definition ParseUint (s : string) : NumError + Z :=
  match s with
  | EmptyString => inl ErrSyntax
  | _ => ParseUint_loop 0 s
  end.

(** [ParseInt(s, 10, 0)]; a range error of [ParseUint] is a range error
    here too (the clamped value is past either cutoff). *)
Definition ParseInt (s : string) : NumError + Z :=
  match s with
  | EmptyString => inl ErrSyntax
  | String c rest =>
      let neg := bool_decide (c = "-"%char) in
      let s := if bool_decide (c = "+"%char) || neg then rest else s in
      match ParseUint s with
      | inl e => inl e
      | inr un =>
          let cutoff := (2 ^ 63)%Z in
          if negb neg && (cutoff <=? un)%Z then inl ErrRange
          else if neg && (cutoff <? un)%Z then inl ErrRange
          else inr (if neg then (- un)%Z else un)
      end
  end.

(** The fast path of [Atoi]: [n = n*10 + int(ch)] cannot overflow below
    19 characters. *)
Fixpoint Atoi_loop (n : Z) (s : string) : NumError + Z :=
  match s with
  | EmptyString => inr n
  | String ch rest =>
      let ch := ((Z.of_N (code ch) - 48) mod 256)%Z in
      if (9 <? ch)%Z then inl ErrSyntax
      else Atoi_loop (n * 10 + ch)%Z rest
  end.

Definition Atoi (s : string) : NumError + Z :=
  let sLen := String.length s in
  if bool_decide (0 < sLen) && bool_decide (sLen < 19) then
    match s with
    | EmptyString => inl ErrSyntax
    | String c rest =>
        let signed := bool_decide (c = "-"%char) || bool_decide (c = "+"%char) in
        let s := if signed then rest else s in
        if signed && bool_decide (String.length s < 1) then inl ErrSyntax
        else
          match Atoi_loop 0 s with
          | inl e => inl e
          | inr n => inr (if bool_decide (c = "-"%char) then (- n)%Z else n)
          end
    end
  else ParseInt s.

End strconv.

(** ** [net.SplitHostPort] *)

Module net.

Definition missingPort := "missing port in address".
Definition tooManyColons := "too many colons in address".

Definition SplitHostPort (hostport : string) : res (string * string) :=
  let addrErr (why : string) : res (string * string) :=
    Err (AddrError why hostport) in
  (* the checks shared by both branches; [host], [j], [k] as in the source *)
  let finish (host port : string) (j k : nat) : res (string * string) :=
    if bool_decide (is_Some (IndexByte "[" (sliceFrom j hostport))) then
      addrErr "unexpected '[' in address"
    else if bool_decide (is_Some (IndexByte "]" (sliceFrom k hostport))) then
      addrErr "unexpected ']' in address"
    else Ok (host, port) in
  (* the port starts after the last colon *)
  match splitLast ":" hostport with
  | None => addrErr missingPort
  | Some (front, port) =>
      let i := String.length front in
      if HasPrefix hostport "[" then
        match IndexByte "]" hostport with
        | None => addrErr "missing ']' in address"
        | Some end_ =>
            if bool_decide (end_ + 1 = String.length hostport) then
              addrErr missingPort
            else if bool_decide (end_ + 1 = i) then
              finish (sliceTo (end_ - 1) (sliceFrom 1 hostport)) port 1 (end_ + 1)
            else if HasPrefix (sliceFrom (end_ + 1) hostport) ":" then
              addrErr tooManyColons
            else addrErr missingPort
        end
      else
        if bool_decide (is_Some (IndexByte ":" front)) then
          addrErr tooManyColons
        else finish front port 0 0
  end.

End net.

(** ** The target resolver *)

Section Resolver.

(** [strings.ToLower]: Unicode case mapping, of which the resolver only
    needs the result. *)
Variable ToLower : string -> string.

Definition defaultPort (protocol : string) : Z :=
  if String.eqb protocol "https" then 443
  else if String.eqb protocol "smtp" then 587
  else if String.eqb protocol "imap" then 143
  else if String.eqb protocol "pop3" then 110
  else 443.

(** [net.SplitHostPort] followed by [strconv.Atoi]: the lines the two
    branches of [parseTarget] that find a colon have in common. *)
Definition hostAndPort (hostport : string) : res (string * Z) :=
  match net.SplitHostPort hostport with
  | Err splitErr => Err splitErr
  | Ok (host, portStr) =>
      match strconv.Atoi portStr with
      | inl _ => Err (Errorf ("invalid port: " +:+ portStr))
      | inr port => Ok (host, port)
      end
  end.

(** The result is [(server, port, protocol)]. *)
Definition parseTarget (target : string) : res (string * Z * string) :=
  if Contains target "://" then
    let '(scheme, serverPart) := cut target "://" in
    let protocol := ToLower scheme in
    let serverPart := before serverPart "/" in
    if Contains serverPart ":" then
      match hostAndPort serverPart with
      | Err e => Err e
      | Ok (server, port) => Ok (server, port, protocol)
      end
    else Ok (serverPart, defaultPort protocol, protocol)
  else if Contains target ":" then
    match hostAndPort target with
    | Err e => Err e
    | Ok (server, port) => Ok (server, port, "https")
    end
  else Ok (target, 443%Z, "https").

End Resolver.

(** ASCII lower-casing, which is what [strings.ToLower] does on ASCII text. *)
Definition lowerByte (b : ascii) : ascii :=
  if between 65 90 b then ascii_of_N (code b + 32) else b.

Fixpoint asciiToLower (s : string) : string :=
  match s with
  | EmptyString => EmptyString
  | String b rest => String (lowerByte b) (asciiToLower rest)
  end.

(** ** PEM ([encoding/pem], [encoding/base64]) *)

Definition LF : string := String "010"%char EmptyString.
Definition CRLF : string := String "013"%char LF.

Module pem.

Definition b64char (n : N) : ascii :=
  if (n <? 26)%N then ascii_of_N (65 + n)
  else if (n <? 52)%N then ascii_of_N (97 + (n - 26))
  else if (n <? 62)%N then ascii_of_N (48 + (n - 52))
  else if (n =? 62)%N then "+"%char else "/"%char.

(** [base64.StdEncoding]: three bytes give four characters, the tail is
    padded with [=]. *)
Fixpoint base64 (s : string) : string :=
  match s with
  | EmptyString => EmptyString
  | String a EmptyString =>
      let x := code a in
      String (b64char (x / 4)) (String (b64char (x mod 4 * 16)) "==")
  | String a (String b EmptyString) =>
      let x := code a in
      let y := code b in
      String (b64char (x / 4))
        (String (b64char (x mod 4 * 16 + y / 16))
           (String (b64char (y mod 16 * 4)) "="))
  | String a (String b (String c rest)) =>
      let x := code a in
      let y := code b in
      let z := code c in
      String (b64char (x / 4))
        (String (b64char (x mod 4 * 16 + y / 16))
           (String (b64char (y mod 16 * 4 + z / 64))
              (String (b64char (z mod 64)) (base64 rest))))
  end.

Definition pemLineLength : nat := 64.

(** The [lineBreaker]: a newline after every 64th character, and one
    after a last, shorter line.  [room] is what is left of the line. *)
Fixpoint lineBreaker (room : nat) (s : string) : string :=
  match s with
  | EmptyString => if bool_decide (room = pemLineLength) then EmptyString else LF
  | String c rest =>
      match room with
      | S (S r) => String c (lineBreaker (S r) rest)
      | _ => String c (LF +:+ lineBreaker pemLineLength rest)
      end
  end.

(** What [pem.Encode] writes for a block of type CERTIFICATE without
    headers. *)
Definition block (bytes : string) : string :=
  "-----BEGIN CERTIFICATE-----" +:+ LF +:+
  lineBreaker pemLineLength (base64 bytes) +:+
  "-----END CERTIFICATE-----" +:+ LF.

End pem.

(** ** The world the program runs in *)

Inductive net_event :=
| Dial (addr : string)                 (* a TCP connection is opened (or refused) *)
| SetReadDeadline (conn : nat)
| Read (conn : nat)
| Write (conn : nat) (data : string)
| Handshake (conn : nat) (serverName : string) (insecure : bool)
| Close (conn : nat)
| SMTPNewClient (conn : nat)           (* smtp.NewClient: reads the greeting *)
| SMTPStartTLS (conn : nat) (serverName : string) (insecure : bool)
                                       (* client.StartTLS(tlsConfig) *)
| SMTPQuit (conn : nat).               (* client.Quit *)

Inductive notice :=
| Printed (line : string)
| UsageInstructions (bundleFile server : string).

Record World := {
  fs : gmap string string;   (* the working directory: name to contents *)
  net : list net_event;      (* what happened on the network, oldest first *)
  out : list notice;         (* standard output, oldest first *)
  tick : nat                 (* fallible operations performed so far *)
}.

(** The environment decides every fallible operation: whether the
    [n]-th one succeeds, which chain the peer presents when it is a
    handshake, and how many bytes reach the file when it is a file write
    that fails. *)
Record Env := {
  answer : nat -> bool;
  peer_chain : nat -> list Certificate;
  short : nat -> nat
}.

Definition isDial (e : net_event) : bool :=
  match e with Dial _ => true | _ => false end.

Definition connections (w : World) : nat := length (List.filter isDial (net w)).

Definition M (A : Type) : Type := World -> res A * World.

Global Instance M_ret : MRet M := fun A a w => (Ok a, w).
Global Instance M_bind : MBind M := fun A B f m w =>
  match m w with
  | (Ok a, w') => f a w'
  | (Err e, w') => (Err e, w')
  end.

Definition throw {A} (e : error) : M A := fun w => (Err e, w).

(** An error of the callee handled by the caller: [if err != nil { ... }]. *)
Definition try {A} (m : M A) : M (res A) := fun w =>
  let '(r, w') := m w in (Ok r, w').

(** [defer]: [cleanup] runs when [body] returns, whatever it returns. *)
Definition defer {A} (cleanup : World -> World) (body : M A) : M A := fun w =>
  let '(r, w') := body w in (r, cleanup w').

Definition emit (e : net_event) : M unit := fun w =>
  (Ok tt, {| fs := fs w; net := net w ++ [e]; out := out w; tick := tick w |}).

Definition emitted (e : net_event) (w : World) : World := snd (emit e w).

Definition Printf (line : string) : M unit := fun w =>
  (Ok tt, {| fs := fs w; net := net w; out := out w ++ [Printed line]; tick := tick w |}).

Definition setFile (name contents : string) : M unit := fun w =>
  (Ok tt, {| fs := <[name := contents]> (fs w); net := net w; out := out w; tick := tick w |}).

Definition when (b : bool) (m : M unit) : M unit := if b then m else mret tt.

Record Config := {
  Target : string;
  InsecureSSL : bool;
  Timeout : Z;               (* nanoseconds *)
  Verbose : bool
}.

Section Engine.

Variable ToLower : string -> string.
Variable env : Env.

(** The next fallible operation: its number and the environment's
    verdict. *)
Definition ask : M (nat * bool) := fun w =>
  (Ok (tick w, answer env (tick w)),
   {| fs := fs w; net := net w; out := out w; tick := S (tick w) |}).

(** An operation that fails or succeeds without a result. *)
Definition fallible : M unit :=
  '(n, ok) ← ask; if ok : bool then mret tt else throw (EnvError n).

(** *** Network *)

Definition dial (addr : string) : M nat := fun w =>
  (emit (Dial addr);; fallible;; mret (connections w)) w.

Definition read (conn : nat) : M unit := emit (Read conn);; fallible.

Definition write (conn : nat) (data : string) : M unit :=
  emit (Write conn data);; fallible.

Definition handshake (conn : nat) (server : string) (insecure : bool)
  : M (list Certificate) :=
  emit (Handshake conn server insecure);;
  '(n, ok) ← ask;
  if ok : bool then mret (peer_chain env n) else throw (EnvError n).

(** *** Files *)

(** [os.Stat(name)] returns no error: the file is there.  (A stat that
    fails on a file that exists is outside the model.) *)
Definition exists_ (name : string) : M bool := fun w =>
  (Ok (bool_decide (is_Some (fs w !! name))), w).

(** [os.Create]: the file is created or truncated. *)
Definition osCreate (name : string) : M unit :=
  fallible;; setFile name "".

(** Writing [data] at the end of an open file; a failed write leaves a
    prefix of [data] behind. *)
Definition fileWrite (name data : string) : M unit := fun w =>
  let old := default "" (fs w !! name) in
  ('(n, ok) ← ask;
   if ok : bool then setFile name (old +:+ data)
   else setFile name (old +:+ sliceTo (short env n) data);; throw (EnvError n)) w.

Definition pemEncode (name : string) (cert : Certificate) : M unit :=
  fileWrite name (pem.block (Raw cert)).

(** [fmt.Errorf(msg + ": %v", err)] on the error path of a call. *)
Definition wrapErr {A} (msg : string) (m : M A) : M A := fun w =>
  match m w with
  | (Err e, w') => (Err (Wrap msg e), w')
  | r => r
  end.

(** *** Retrieving the chain *)

Definition address (server : string) (port : Z) : string :=
  server +:+ ":" +:+ pretty port.

(** Direct TLS.  [tls.DialWithDialer] connects and shakes hands; when
    the handshake fails it closes the connection itself. *)
Definition getTLSCertificates (server : string) (port : Z) (config : Config)
  : M (list Certificate) :=
  conn ← dial (address server port);
  r ← try (handshake conn server (InsecureSSL config));
  match r with
  | Err e => emit (Close conn);; throw e
  | Ok certs => defer (emitted (Close conn)) (mret certs)
  end.

Definition getTLSCertificatesWithSTARTTLS
    (server : string) (port : Z) (protocol : string) (config : Config)
  : M (list Certificate) :=
  (* Connect to the server *)
  conn ← dial (address server port);
  defer (emitted (Close conn))
    ((* Set read timeout for initial responses *)
     emit (SetReadDeadline conn);;
     (* Read initial server greeting *)
     wrapErr "failed to read server greeting" (read conn);;
     (* Send STARTTLS command based on protocol *)
     starttlsCmd ←
       (if String.eqb protocol "smtp" then
          (* Send EHLO first; neither result is looked at *)
          try (write conn ("EHLO localhost" +:+ CRLF));;
          try (read conn);;
          mret ("STARTTLS" +:+ CRLF)
        else if String.eqb protocol "imap" then mret ("a001 STARTTLS" +:+ CRLF)
        else if String.eqb protocol "pop3" then mret ("STLS" +:+ CRLF)
        else throw (Errorf ("unsupported STARTTLS protocol: " +:+ protocol)));
     (* Send STARTTLS command *)
     wrapErr "failed to send STARTTLS" (write conn starttlsCmd);;
     (* Read STARTTLS response *)
     wrapErr "failed to read STARTTLS response" (read conn);;
     (* Upgrade to TLS *)
     wrapErr "TLS handshake failed"
       (handshake conn server (InsecureSSL config))).

Definition getSMTPCertificates (server : string) (port : Z) (config : Config)
  : M (list Certificate) :=
  (* Connect to SMTP server *)
  conn ← dial (address server port);
  defer (emitted (Close conn))
    ((* Create SMTP client *)
     emit (SMTPNewClient conn);; fallible;;
     defer (emitted (SMTPQuit conn))
       ((* Start TLS *)
        emit (SMTPStartTLS conn server (InsecureSSL config));; fallible;;
        (* "we'll use our custom STARTTLS implementation" *)
        emit (SMTPQuit conn);;
        emit (Close conn);;
        getTLSCertificatesWithSTARTTLS server port "smtp" config)).

Definition getIMAPCertificates (server : string) (port : Z) (config : Config)
  : M (list Certificate) :=
  getTLSCertificatesWithSTARTTLS server port "imap" config.

Definition getPOP3Certificates (server : string) (port : Z) (config : Config)
  : M (list Certificate) :=
  getTLSCertificatesWithSTARTTLS server port "pop3" config.

(** *** Writing the files *)

(** The loop of [createCertificateBundle]: [i] is the index of the head
    of [certs] in the chain, [n] the length of the chain. *)
Fixpoint bundleLoop (filename : string) (verbose : bool) (n i : nat)
    (certs : list Certificate) : M unit :=
  match certs with
  | [] => mret tt
  | cert :: rest =>
      when verbose
        (Printf ("Adding certificate " +:+ pretty (i + 1) +:+
                 " to bundle: " +:+ CommonName cert +:+ LF));;
      pemEncode filename cert;;
      (* Add newline between certificates; the result is not looked at *)
      (if bool_decide (i < n - 1) then try (fileWrite filename LF);; mret tt
       else mret tt);;
      bundleLoop filename verbose n (S i) rest
  end.

Definition createCertificateBundle (certs : list Certificate)
    (filename : string) (verbose : bool) : M unit :=
  osCreate filename;;
  bundleLoop filename verbose (length certs) 0 certs;;
  Printf ("Created certificate bundle: " +:+ filename +:+ LF);;
  Printf ("Bundle contains " +:+ pretty (length certs) +:+ " certificate(s)" +:+ LF).

(** The loop of [createIndividualCertificates], [i] as above. *)
Fixpoint individualLoop (verbose : bool) (i : nat)
    (certs : list Certificate) : M unit :=
  match certs with
  | [] => mret tt
  | cert :: rest =>
      let filename := generateCertFilename cert (i + 1) in
      (* Check if file already exists *)
      present ← exists_ filename;
      (if present : bool then
         when verbose
           (Printf ("Individual cert already exists: " +:+ filename +:+ LF))
       else
         osCreate filename;;
         pemEncode filename cert;;
         Printf ("Saving individual cert: " +:+ filename +:+ LF));;
      individualLoop verbose (S i) rest
  end.

Definition createIndividualCertificates (certs : list Certificate)
    (verbose : bool) : M unit :=
  individualLoop verbose 0 certs.

Definition printUsageInstructions (bundleFile server : string) : M unit :=
  fun w =>
    (Ok tt, {| fs := fs w; net := net w;
               out := out w ++ [UsageInstructions bundleFile server];
               tick := tick w |}).

(** *** The invocation *)

Definition getCertificates (server : string) (port : Z) (protocol : string)
    (config : Config) : M (list Certificate) :=
  if String.eqb protocol "https" || String.eqb protocol "tls" then
    getTLSCertificates server port config
  else if String.eqb protocol "smtp" then
    getSMTPCertificates server port config
  else if String.eqb protocol "imap" then
    getIMAPCertificates server port config
  else if String.eqb protocol "pop3" then
    getPOP3Certificates server port config
  else getTLSCertificates server port config.

Definition bundleName (server : string) : string := server +:+ "_bundle.pem".

Definition extractCertificates (config : Config) : M unit :=
  match parseTarget ToLower (Target config) with
  | Err e => throw (Wrap "invalid target" e)
  | Ok (server, port, protocol) =>
      when (Verbose config)
        (Printf ("Connecting to " +:+ server +:+ ":" +:+ pretty port +:+
                 " (protocol: " +:+ protocol +:+ ")..." +:+ LF));;
      (* Get certificates based on protocol *)
      certs ← wrapErr "failed to get certificates"
                (getCertificates server port protocol config);
      if bool_decide (length certs = 0) then
        throw (Errorf "no certificates found")
      else
        (* Create certificate bundle *)
        let bundleFile := bundleName server in
        wrapErr "failed to create bundle"
          (createCertificateBundle certs bundleFile (Verbose config));;
        (* Create individual certificate files *)
        wrapErr "failed to create individual certificates"
          (createIndividualCertificates certs (Verbose config));;
        (* Print usage instructions *)
        printUsageInstructions bundleFile server
  end.

End Engine.

(** ** Concrete environments and runs *)

Definition world0 : World := {| fs := ∅; net := []; out := []; tick := 0 |}.

Definition cert (cn : string) (raw : string) : Certificate :=
  {| Raw := raw; CommonName := cn; DNSNames := [] |}.

Definition allOk (chain : list Certificate) : Env :=
  {| answer := fun _ => true; peer_chain := fun _ => chain; short := fun _ => 0 |}.

Definition cfg (target : string) : Config :=
  {| Target := target; InsecureSSL := false; Timeout := 10000000000; Verbose := false |}.

Definition run (e : Env) (target : string) (w : World) :=
  extractCertificates asciiToLower e (cfg target) w.

Definition chain2 : list Certificate :=
  [cert "mail.example.com" "leaf"; cert "Example CA" "root"].

Definition withLeaf : World :=
  {| fs := {["mail.example.com.crt" := "kept"]}; net := []; out := []; tick := 0 |}.

(** Every operation succeeds but the one numbered [n]. *)
Definition failingAt (n : nat) (chain : list Certificate) : Env :=
  {| answer := fun k => negb (Nat.eqb k n); peer_chain := fun _ => chain;
     short := fun _ => 0 |}.

(** ** Vocabulary of the specification *)

(** Every byte of [s] is in [[A-Za-z0-9._-]]. *)
Fixpoint allAllowed (s : string) : bool :=
  match s with
  | EmptyString => true
  | String b rest => allowed b && allAllowed rest
  end.

Fixpoint allDigits (s : string) : bool :=
  match s with
  | EmptyString => true
  | String c rest => between 48 57 c && allDigits rest
  end.

(** The number a digit string denotes, continuing from [acc]. *)
Fixpoint decimal (acc : Z) (s : string) : Z :=
  match s with
  | EmptyString => acc
  | String c rest => decimal (acc * 10 + strconv.digit c) rest
  end.

Definition isSign (c : ascii) : bool :=
  bool_decide (c = "-"%char) || bool_decide (c = "+"%char).

(** A decimal integer: an optional sign and at least one digit. *)
Definition isNumeric (s : string) : bool :=
  match s with
  | EmptyString => false
  | String c rest =>
      if isSign c then negb (String.eqb rest "") && allDigits rest
      else allDigits s
  end.

Definition numericValue (s : string) : Z :=
  match s with
  | EmptyString => 0
  | String c rest =>
      if bool_decide (c = "-"%char) then - decimal 0 rest
      else if bool_decide (c = "+"%char) then decimal 0 rest
      else decimal 0 s
  end.

(** The text of a bundle: the blocks in chain order, a line feed between
    two of them. *)
Fixpoint bundleText (certs : list Certificate) : string :=
  match certs with
  | [] => ""
  | [c] => pem.block (Raw c)
  | c :: rest => pem.block (Raw c) +:+ LF +:+ bundleText rest
  end.




(** The names the naming policy gives to a chain whose first certificate
    has index [i]. *)
Fixpoint certNames (i : nat) (certs : list Certificate) : list string :=
  match certs with
  | [] => []
  | c :: rest => generateCertFilename c (i + 1) :: certNames (S i) rest
  end.

(** The first certificate of the chain that the policy names [f]. *)
Fixpoint firstNamed (f : string) (i : nat) (certs : list Certificate)
  : option Certificate :=
  match certs with
  | [] => None
  | c :: rest =>
      if String.eqb (generateCertFilename c (i + 1)) f then Some c
      else firstNamed f (S i) rest
  end.


(** The integers of a 64-bit [int]. *)
Definition inInt64 (v : Z) : bool := ((- 2 ^ 63 <=? v) && (v <? 2 ^ 63))%Z.

(** A byte that is none of [:], [[] and []]; a string of such bytes. *)
Definition hostByte (c : ascii) : bool :=
  negb (bool_decide (c = ":"%char) || bool_decide (c = "["%char) ||
        bool_decide (c = "]"%char)).

Fixpoint plain (s : string) : bool :=
  match s with
  | EmptyString => true
  | String c rest => hostByte c && plain rest
  end.

(** No operation fails. *)
Definition allSucceed (env : Env) : Prop := forall k, answer env k = true.

Fixpoint lastByte (s : string) : option ascii :=
  match s with
  | EmptyString => None
  | String c EmptyString => Some c
  | String _ rest => lastByte rest
  end.

(** *** Frames: what a computation leaves alone *)

(** [m] relates every world to the world it leaves behind by [R]. *)
Definition frames {A} (R : relation World) (m : M A) : Prop :=
  forall w, R w (snd (m w)).

Definition sameNet : relation World := fun w w' => net w' = net w.
Definition sameFiles : relation World := fun w w' => fs w' = fs w.
Definition sameExcept (name : string) : relation World := fun w w' =>
  forall f, f <> name -> fs w' !! f = fs w !! f.
(** Files that exist keep their contents. *)
Definition keepsExisting : relation World := fun w w' =>
  forall f, is_Some (fs w !! f) -> fs w' !! f = fs w !! f.

(** Files that exist, other than [name], keep their contents. *)
Definition keepsExistingExcept (name : string) : relation World := fun w w' =>
  forall f, f <> name -> is_Some (fs w !! f) -> fs w' !! f = fs w !! f.

(** A file that exists still exists. *)
Definition keepsFile (name : string) : relation World := fun w w' =>
  is_Some (fs w !! name) -> is_Some (fs w' !! name).

(** The steps of the imap negotiation and of the smtp negotiation on
    connection [c], in order. *)
Definition imapScript (addr server : string) (insecure : bool) (c : nat)
  : list net_event :=
  [Dial addr; SetReadDeadline c; Read c; Write c ("a001 STARTTLS" +:+ CRLF);
   Read c; Handshake c server insecure].

Definition smtpScript (addr server : string) (insecure : bool) (c : nat)
  : list net_event :=
  [Dial addr; SetReadDeadline c; Read c; Write c ("EHLO localhost" +:+ CRLF);
   Read c; Write c ("STARTTLS" +:+ CRLF); Read c; Handshake c server insecure].

(** An event that belongs to the retrieval from [server:port] under
    [config]: a connection goes to that address; a handshake, also the
    one the SMTP client makes in its [StartTLS], names that server and
    has the configured verification switch. *)
Definition ofRetrieval (server : string) (port : Z) (config : Config)
    (e : net_event) : Prop :=
  match e with
  | Dial addr => addr = address server port
  | Handshake _ name insecure
  | SMTPStartTLS _ name insecure =>
      name = server /\ insecure = InsecureSSL config
  | _ => True
  end.






(** The line that announces the connection under [-verbose]. *)
Definition connectingLine (server : string) (port : Z) (protocol : string)
  : string :=
  "Connecting to " +:+ server +:+ ":" +:+ pretty port +:+
  " (protocol: " +:+ protocol +:+ ")..." +:+ LF.

(** [s] ends in [suffix]. *)
Definition HasSuffix (s suffix : string) : Prop :=
  exists front, s = front +:+ suffix.

(** Every error [m] returns satisfies [P]. *)
Definition raises {A} (P : error -> Prop) (m : M A) : Prop :=
  forall w e w', m w = (Err e, w') -> P e.

(** An error that comes from the operating system as it is. *)
Definition isEnvError (e : error) : Prop := exists k, e = EnvError k.

(** *** [main], from the parsed flags on *)



(** * Properties *)

(** ** Strings *)

Lemma code_lt_256 (c : ascii) : (code c < 256)%N.
Proof. apply N_ascii_bounded. Qed.

Lemma append_String (c : ascii) (s t : string) :
  String c s +:+ t = String c (s +:+ t).
Proof. reflexivity. Qed.

Lemma append_assoc (s t u : string) : (s +:+ t) +:+ u = s +:+ (t +:+ u).
Proof. induction s as [|c s IH]; [done|]. rewrite !append_String. by rewrite IH. Qed.

(** ** The naming policy *)

Lemma replaceAll_allowed (s : string) :
  allAllowed s = true -> replaceAll 0 s = s.
Proof.
  induction s as [|b rest IH]; simpl; [done|].
  intros [Hb Hrest]%andb_prop. rewrite Hb. by rewrite IH.
Qed.

(** What [replaceAll] returns never starts with an asterisk, so the
    [TrimPrefix] of [sanitizeFilename] has nothing to trim. *)
Lemma replaceAll_no_wildcard (s : string) :
  HasPrefix (replaceAll 0 s) "*." = false.
Proof.
  destruct s as [|b rest]; simpl; [done|].
  destruct (allowed b) eqn:Hb; simpl.
  - destruct (decide ("*"%char = b)) as [<-|]; [discriminate Hb | done].
  - done.
Qed.

Lemma sanitizeFilename_replaceAll (name : string) :
  sanitizeFilename name = replaceAll 0 name.
Proof.
  unfold sanitizeFilename, TrimPrefix. by rewrite replaceAll_no_wildcard.
Qed.

(** C1 (the code differs): for a common name that is the wildcard marker
    followed by bytes of [[A-Za-z0-9._-]], the derived file name keeps the
    marker with its asterisk replaced by an underscore: it is
    ["_." ++ rest ++ ".crt"], not [rest ++ ".crt"]. *)
Theorem wildcard_common_name_not_stripped
    (c : Certificate) (index : nat) (rest : string) :
  CommonName c = "*." +:+ rest ->
  allAllowed rest = true ->
  generateCertFilename c index = "_." +:+ rest +:+ ".crt".
Proof.
  intros Hcn Hrest. unfold generateCertFilename.
  rewrite Hcn, sanitizeFilename_replaceAll. simpl.
  by rewrite replaceAll_allowed.
Qed.

Lemma wildcard_common_name_not_stripped_example :
  allAllowed "Example.Com" = true /\
  generateCertFilename (cert "*.Example.Com" "") 1 = "_.Example.Com.crt".
Proof.
  split; [reflexivity|].
  apply (wildcard_common_name_not_stripped (cert "*.Example.Com" "") 1 "Example.Com");
    reflexivity.
Defined.

(** The other example of the specification holds. *)
Example sanitize_invalid_characters :
  generateCertFilename (cert "My Cert/Test" "") 1 = "My_Cert_Test.crt".
Proof. reflexivity. Qed.

(** ** [strconv.Atoi] accepts decimal integers only *)

Lemma between_digit (c : ascii) :
  between 48 57 c = true -> (0 <= strconv.digit c <= 9)%Z.
Proof.
  unfold between, strconv.digit.
  intros [H1 H2]%andb_prop. apply N.leb_le in H1, H2. lia.
Qed.

Lemma Atoi_loop_spec (s : string) (n v : Z) :
  strconv.Atoi_loop n s = inr v -> allDigits s = true /\ v = decimal n s.
Proof.
  revert n. induction s as [|c rest IH]; simpl; intros n H.
  - split; congruence.
  - pose proof (code_lt_256 c) as Hc.
    destruct (9 <? _)%Z eqn:Hd; [discriminate|].
    apply Z.ltb_ge in Hd.
    assert (48 <= Z.of_N (code c) <= 57)%Z as Hr.
    { destruct (Z_lt_le_dec (Z.of_N (code c)) 48) as [Hlt|Hge].
      - rewrite <- (Z.mod_add _ 1 256) in Hd by lia.
        rewrite Z.mod_small in Hd by lia. lia.
      - rewrite Z.mod_small in Hd by lia. lia. }
    rewrite Z.mod_small in H by lia.
    apply IH in H as [-> ->]. split; [|done].
    unfold between. rewrite andb_true_r.
    apply andb_true_intro; split; apply N.leb_le; lia.
Qed.

Lemma ParseUint_loop_spec (s : string) (n v : Z) :
  (0 <= n <= strconv.maxUint64)%Z ->
  strconv.ParseUint_loop n s = inr v ->
  allDigits s = true /\ v = decimal n s /\ (0 <= v <= strconv.maxUint64)%Z.
Proof.
  revert n. induction s as [|c rest IH]; simpl; intros n Hn H.
  - injection H as <-. done.
  - destruct (between 48 57 c) eqn:Hc; [|discriminate].
    apply between_digit in Hc.
    destruct (strconv.cutoff10 <=? n)%Z eqn:Hcut; [discriminate|].
    apply Z.leb_gt in Hcut.
    change strconv.cutoff10 with 1844674407370955162%Z in Hcut.
    change strconv.maxUint64 with 18446744073709551615%Z in *.
    change (2 ^ 64)%Z with 18446744073709551616%Z in H.
    destruct (_ || _) eqn:Hov in H; [discriminate|].
    apply orb_false_elim in Hov as [Hlt Hmax].
    apply Z.ltb_ge in Hlt, Hmax.
    destruct (Z_lt_le_dec (n * 10 + strconv.digit c) 18446744073709551616)
      as [Hsmall|Hbig].
    + rewrite Z.mod_small in H, Hlt, Hmax by lia.
      apply IH in H; [|lia]. done.
    + exfalso.
      rewrite <- (Z.mod_add _ (-1) 18446744073709551616) in Hlt by lia.
      rewrite Z.mod_small in Hlt by lia. lia.
Qed.

Lemma decimal_bounds (s : string) (n : Z) :
  (0 <= n)%Z -> allDigits s = true ->
  (n * 10 ^ Z.of_nat (String.length s) <= decimal n s
   < (n + 1) * 10 ^ Z.of_nat (String.length s))%Z.
Proof.
  revert n. induction s as [|c rest IH]; intros n Hn Hs.
  - simpl. lia.
  - simpl in Hs. apply andb_prop in Hs as [Hc Hrest].
    apply between_digit in Hc.
    cbn [String.length decimal].
    rewrite Nat2Z.inj_succ, Z.pow_succ_r by lia.
    specialize (IH (n * 10 + strconv.digit c)%Z ltac:(lia) Hrest).
    assert (0 < 10 ^ Z.of_nat (String.length rest))%Z by (apply Z.pow_pos_nonneg; lia).
    nia.
Qed.

Lemma ParseUint_spec (s : string) (v : Z) :
  strconv.ParseUint s = inr v ->
  negb (String.eqb s "") && allDigits s = true /\ v = decimal 0 s /\
  (0 <= v <= strconv.maxUint64)%Z.
Proof.
  destruct s as [|c rest]; [discriminate|]. unfold strconv.ParseUint.
  intros H. apply ParseUint_loop_spec in H; [done|].
  by change strconv.maxUint64 with 18446744073709551615%Z.
Qed.

Lemma ParseInt_spec (s : string) (v : Z) :
  strconv.ParseInt s = inr v ->
  isNumeric s = true /\ v = numericValue s /\ (- 2 ^ 63 <= v < 2 ^ 63)%Z.
Proof.
  destruct s as [|c rest]; [discriminate|].
  unfold strconv.ParseInt, isNumeric, numericValue, isSign.
  destruct (bool_decide (c = "-"%char)) eqn:Hneg;
    destruct (bool_decide (c = "+"%char)) eqn:Hpos; cbn [orb andb negb];
    (destruct (strconv.ParseUint _) as [e|un] eqn:Hun; [discriminate|]);
    apply ParseUint_spec in Hun as (Hd & -> & Hr);
    change strconv.maxUint64 with 18446744073709551615%Z in Hr;
    change (2 ^ 63)%Z with 9223372036854775808%Z;
    (destruct (_ <? _)%Z eqn:Hcut || destruct (_ <=? _)%Z eqn:Hcut);
    try discriminate; intros [= <-];
    (apply Z.ltb_ge in Hcut || apply Z.leb_gt in Hcut);
    (split; [|split; [reflexivity|cbn [decimal] in *; lia]]).
  1-3: done.
  by apply andb_prop in Hd as [_ ?].
Qed.

Lemma Atoi_spec (s : string) (v : Z) :
  strconv.Atoi s = inr v ->
  isNumeric s = true /\ v = numericValue s /\ (- 2 ^ 63 <= v < 2 ^ 63)%Z.
Proof.
  unfold strconv.Atoi.
  destruct (_ && _) eqn:Hfast; [|apply ParseInt_spec].
  apply andb_prop in Hfast as [_ Hlen%bool_decide_eq_true].
  destruct s as [|c rest]; [discriminate|].
  unfold isNumeric, numericValue, isSign.
  assert (forall t, String.length t < 19 -> allDigits t = true ->
                    (0 <= decimal 0 t < 2 ^ 63)%Z) as Hbound.
  { intros t Ht Hd. pose proof (decimal_bounds t 0 ltac:(lia) Hd) as Hb.
    assert (10 ^ Z.of_nat (String.length t) <= 10 ^ 18)%Z
      by (apply Z.pow_le_mono_r; lia).
    change (10 ^ 18)%Z with 1000000000000000000%Z in *.
    change (2 ^ 63)%Z with 9223372036854775808%Z. lia. }
  change (2 ^ 63)%Z with 9223372036854775808%Z in *.
  destruct (bool_decide (c = "-"%char)) eqn:Hneg;
    destruct (bool_decide (c = "+"%char)) eqn:Hpos; cbn [orb andb negb].
  1-3: (destruct rest as [|d rest']; [discriminate|];
        destruct (bool_decide (_ < 1)) eqn:Hl1;
        [apply bool_decide_eq_true in Hl1; simpl in Hl1; lia|];
        destruct (strconv.Atoi_loop 0 _) as [e|n] eqn:Hn; [discriminate|];
        intros [= <-]; apply Atoi_loop_spec in Hn as [Hd ->];
        pose proof (Hbound (String d rest') ltac:(simpl in *; lia) Hd);
        repeat split; first [done | lia]).
  destruct (strconv.Atoi_loop 0 _) as [e|n] eqn:Hn; [discriminate|].
  intros [= <-]. apply Atoi_loop_spec in Hn as [Hd ->].
  pose proof (Hbound (String c rest) ltac:(simpl in *; lia) Hd).
  repeat split; first [done | lia].
Qed.

Lemma Atoi_loop_complete (s : string) (n : Z) :
  allDigits s = true -> strconv.Atoi_loop n s = inr (decimal n s).
Proof.
  revert n. induction s as [|c rest IH]; simpl; intros n Hs; [done|].
  apply andb_prop in Hs as [Hc Hrest].
  apply between_digit in Hc. unfold strconv.digit in *.
  rewrite Z.mod_small by lia.
  destruct (9 <? _)%Z eqn:Hd; [apply Z.ltb_lt in Hd; lia|].
  by apply IH.
Qed.

Lemma ParseUint_loop_complete (s : string) (n : Z) :
  allDigits s = true -> (0 <= n)%Z ->
  (decimal n s <= strconv.maxUint64)%Z ->
  strconv.ParseUint_loop n s = inr (decimal n s).
Proof.
  revert n. induction s as [|c rest IH]; simpl; intros n Hs Hn Hmax; [done|].
  apply andb_prop in Hs as [Hc Hrest]. rewrite Hc.
  apply between_digit in Hc.
  pose proof (decimal_bounds rest (n * 10 + strconv.digit c) ltac:(lia) Hrest)
    as [Hlo _].
  assert (1 <= 10 ^ Z.of_nat (String.length rest))%Z
    by (apply Z.lt_pred_le, Z.pow_pos_nonneg; lia).
  change strconv.maxUint64 with 18446744073709551615%Z in *.
  change strconv.cutoff10 with 1844674407370955162%Z.
  change (2 ^ 64)%Z with 18446744073709551616%Z.
  assert (n * 10 + strconv.digit c <= 18446744073709551615)%Z by nia.
  destruct (_ <=? n)%Z eqn:Hcut; [apply Z.leb_le in Hcut; lia|].
  rewrite Z.mod_small by lia.
  destruct (_ || _) eqn:Hov.
  - apply orb_prop in Hov as [Hov%Z.ltb_lt|Hov%Z.ltb_lt]; lia.
  - apply IH; [done|lia|done].
Qed.

Lemma allDigits_decimal_nonneg (s : string) (n : Z) :
  allDigits s = true -> (0 <= n)%Z -> (0 <= decimal n s)%Z.
Proof.
  intros Hs Hn. pose proof (decimal_bounds s n Hn Hs) as [Hlo _].
  assert (0 < 10 ^ Z.of_nat (String.length s))%Z by (apply Z.pow_pos_nonneg; lia).
  nia.
Qed.

Lemma ParseInt_complete (s : string) :
  isNumeric s = true -> inInt64 (numericValue s) = true ->
  strconv.ParseInt s = inr (numericValue s).
Proof.
  destruct s as [|c rest]; [discriminate|].
  unfold strconv.ParseInt, isNumeric, numericValue, isSign, inInt64.
  change (2 ^ 63)%Z with 9223372036854775808%Z.
  destruct (bool_decide (c = "-"%char)) eqn:Hneg;
    destruct (bool_decide (c = "+"%char)) eqn:Hpos; cbn [orb andb negb];
    intros Hnum [Hlo%Z.leb_le Hhi%Z.ltb_lt]%andb_prop.
  1-3: (apply andb_prop in Hnum as [Hne Hd];
        destruct rest as [|d rest']; [discriminate|];
        pose proof (allDigits_decimal_nonneg _ 0 Hd ltac:(lia));
        unfold strconv.ParseUint;
        rewrite ParseUint_loop_complete;
        [|done|lia|change strconv.maxUint64 with 18446744073709551615%Z; lia];
        (destruct (_ <? _)%Z eqn:Hcut || destruct (_ <=? _)%Z eqn:Hcut);
        [(apply Z.ltb_lt in Hcut || apply Z.leb_le in Hcut); lia | done]).
  pose proof (allDigits_decimal_nonneg _ 0 Hnum ltac:(lia)).
  unfold strconv.ParseUint.
  rewrite ParseUint_loop_complete;
    [|done|lia|change strconv.maxUint64 with 18446744073709551615%Z; lia].
  destruct (_ <=? _)%Z eqn:Hcut; [apply Z.leb_le in Hcut; lia | done].
Qed.

Lemma Atoi_complete (s : string) :
  isNumeric s = true -> inInt64 (numericValue s) = true ->
  strconv.Atoi s = inr (numericValue s).
Proof.
  intros Hnum Hrange. unfold strconv.Atoi.
  destruct (_ && _) eqn:Hfast; [|by apply ParseInt_complete].
  destruct s as [|c rest]; [discriminate|].
  unfold isNumeric, numericValue, isSign in *.
  destruct (bool_decide (c = "-"%char)) eqn:Hneg;
    destruct (bool_decide (c = "+"%char)) eqn:Hpos; cbn [orb andb negb] in *.
  1-3: (apply andb_prop in Hnum as [Hne Hd];
        destruct rest as [|d rest']; [discriminate|];
        destruct (bool_decide (_ < 1)) eqn:Hl1;
        [apply bool_decide_eq_true in Hl1; simpl in Hl1; lia|];
        by rewrite Atoi_loop_complete).
  by rewrite Atoi_loop_complete.
Qed.

(** [Atoi] fails exactly on what is not a decimal integer of 64 bits. *)
Lemma Atoi_fails (s : string) :
  isNumeric s && inInt64 (numericValue s) = false ->
  exists e, strconv.Atoi s = inl e.
Proof.
  intros H. destruct (strconv.Atoi s) as [e|v] eqn:Hv; [by exists e|].
  apply Atoi_spec in Hv as (Hn & -> & Hlo & Hhi).
  rewrite Hn in H. unfold inInt64 in H. simpl in H.
  apply andb_false_iff in H as [H%Z.leb_gt|H%Z.ltb_ge]; lia.
Qed.

(** ** [net.SplitHostPort] on a host and a port without colons and brackets *)

Lemma hostByte_ne (c d : ascii) :
  hostByte c = true -> d ∈ [":"%char; "["%char; "]"%char] -> c <> d.
Proof.
  unfold hostByte. intros H Hd ->.
  repeat (apply elem_of_cons in Hd as [->|Hd]; [discriminate H|]).
  by apply elem_of_nil in Hd.
Qed.

Lemma plain_IndexByte (s : string) (d : ascii) :
  plain s = true -> d ∈ [":"%char; "["%char; "]"%char] -> IndexByte d s = None.
Proof.
  intros Hs Hd. induction s as [|c rest IH]; simpl in *; [done|].
  apply andb_prop in Hs as [Hc Hrest].
  destruct (decide (c = d)) as [Heq|_]; [by apply (hostByte_ne c d) in Hc|].
  by rewrite IH.
Qed.

Lemma IndexByte_app_None (c : ascii) (l r : string) :
  IndexByte c l = None -> IndexByte c r = None -> IndexByte c (l +:+ r) = None.
Proof.
  intros Hl Hr. induction l as [|b l IH]; simpl in *; [done|].
  destruct (decide (b = c)); [done|].
  destruct (IndexByte c l); [done|]. by rewrite IH.
Qed.

Lemma splitLast_None (c : ascii) (s : string) :
  IndexByte c s = None -> splitLast c s = None.
Proof.
  induction s as [|b s IH]; simpl; [done|].
  destruct (decide (b = c)); [done|].
  destruct (IndexByte c s); [done|]. intros _. by rewrite IH.
Qed.

Lemma splitLast_app (c : ascii) (l r : string) :
  IndexByte c r = None ->
  splitLast c (l +:+ String c r) = Some (l, r).
Proof.
  intros Hr. induction l as [|b l IH]; simpl.
  - rewrite (splitLast_None _ _ Hr). by destruct (decide (c = c)).
  - by rewrite IH.
Qed.

Lemma Contains_byte_app (c : ascii) (l r : string) :
  Contains (l +:+ String c r) (String c "") = true.
Proof.
  induction l as [|b l IH]; simpl.
  - by destruct (decide (c = c)).
  - rewrite IH. apply orb_true_r.
Qed.

Lemma Contains_None (c : ascii) (s sub : string) :
  IndexByte c s = None -> Contains s (String c sub) = false.
Proof.
  induction s as [|b s IH]; simpl; [done|].
  destruct (decide (c = b)) as [->|Hne].
  - by destruct (decide (b = b)).
  - destruct (decide (b = c)) as [->|_]; [done|].
    destruct (IndexByte c s); [done|]. intros _. by rewrite IH.
Qed.

Lemma HasPrefix_String (a b : ascii) (s p : string) :
  HasPrefix (String b s) (String a p) =
  if decide (a = b) then HasPrefix s p else false.
Proof. reflexivity. Qed.

Lemma Contains_scheme_mark (l r : string) :
  IndexByte ":" l = None -> IndexByte ":" r = None ->
  HasPrefix r "//" = false ->
  Contains (l +:+ String ":" r) "://" = false.
Proof.
  intros Hl Hr Hp. induction l as [|b l IH].
  - change ("" +:+ String ":" r) with (String ":" r).
    cbn [Contains]. rewrite (Contains_None _ _ _ Hr), HasPrefix_String.
    destruct (decide (":"%char = ":"%char)); [|done].
    by rewrite Hp.
  - simpl in Hl. destruct (decide (b = ":"%char)) as [|Hne]; [done|].
    destruct (IndexByte ":" l) eqn:Hl'; [done|].
    rewrite append_String. cbn [Contains]. rewrite HasPrefix_String.
    destruct (decide (":"%char = b)) as [<-|_]; [done|]. by rewrite IH.
Qed.

Lemma plain_no_bytes (s : string) :
  plain s = true ->
  IndexByte ":" s = None /\ IndexByte "[" s = None /\ IndexByte "]" s = None.
Proof.
  intros Hs. split_and!; apply plain_IndexByte; try done;
    repeat first [apply list_elem_of_here | apply list_elem_of_further].
Qed.

Lemma SplitHostPort_plain (host portStr : string) :
  plain host = true -> plain portStr = true ->
  net.SplitHostPort (host +:+ ":" +:+ portStr) = Ok (host, portStr).
Proof.
  intros (Hc1 & Ho1 & Hq1)%plain_no_bytes (Hc2 & Ho2 & Hq2)%plain_no_bytes.
  unfold net.SplitHostPort.
  change (":" +:+ portStr) with (String ":" portStr).
  rewrite (splitLast_app _ _ _ Hc2).
  assert (HasPrefix (host +:+ String ":" portStr) "[" = false) as ->.
  { destruct host as [|b host]; [done|]. simpl in *.
    destruct (decide (b = "["%char)) as [->|]; [done|].
    by destruct (decide ("["%char = b)) as [<-|]. }
  rewrite Hc1. cbn [sliceFrom].
  rewrite !IndexByte_app_None; try done.
  - simpl. by rewrite Hq2.
  - simpl. by rewrite Ho2.
Qed.

Lemma SplitHostPort_port (hostport host portStr : string) :
  net.SplitHostPort hostport = Ok (host, portStr) ->
  exists front, splitLast ":" hostport = Some (front, portStr).
Proof.
  unfold net.SplitHostPort.
  destruct (splitLast ":" hostport) as [[front port]|]; [|done].
  intros H. exists front.
  repeat (match type of H with
          | context [match ?x with _ => _ end] => destruct x
          end; try discriminate).
  all: by injection H as _ <-.
Qed.

(** ** The target resolver *)

Section ResolverProperties.

Variable ToLower : string -> string.

(** Whatever the target, a resolved port was written as a decimal
    integer after the last colon. *)
Lemma parseTarget_port_is_numeric (target server protocol : string) (port : Z) :
  Contains target "://" = false ->
  Contains target ":" = true ->
  parseTarget ToLower target = Ok (server, port, protocol) ->
  exists front portStr,
    splitLast ":" target = Some (front, portStr) /\
    isNumeric portStr = true /\ port = numericValue portStr.
Proof.
  intros Hs Hc. unfold parseTarget, hostAndPort. rewrite Hs, Hc.
  destruct (net.SplitHostPort target) as [[host portStr]|e] eqn:Hsplit; [|done].
  apply SplitHostPort_port in Hsplit as [front Hfront].
  destruct (strconv.Atoi portStr) as [e|v] eqn:Hv; [done|].
  intros [= <- <- <-]. apply Atoi_spec in Hv as (Hn & -> & _).
  by exists front, portStr.
Qed.

(** The resolver on [host:port] where neither part has a colon or a
    bracket. *)
Lemma parseTarget_host_port (host portStr : string) :
  plain host = true -> plain portStr = true ->
  HasPrefix portStr "//" = false ->
  parseTarget ToLower (host +:+ ":" +:+ portStr) =
    if isNumeric portStr && inInt64 (numericValue portStr)
    then Ok (host, numericValue portStr, "https")
    else Err (Errorf ("invalid port: " +:+ portStr)).
Proof.
  intros Hh Hp Hslash. unfold parseTarget, hostAndPort.
  rewrite (SplitHostPort_plain _ _ Hh Hp).
  apply plain_no_bytes in Hh as (Hh & _), Hp as (Hp & _).
  change (":" +:+ portStr) with (String ":" portStr).
  rewrite (Contains_scheme_mark _ _ Hh Hp Hslash).
  rewrite Contains_byte_app.
  destruct (isNumeric portStr && inInt64 (numericValue portStr)) eqn:Hnum.
  - apply andb_prop in Hnum as [Hn Hr]. by rewrite Atoi_complete.
  - by apply Atoi_fails in Hnum as [e ->].
Qed.

(** C2 (amended): for a target [host:port] the resolver fails exactly
    when the port part is not a decimal integer (an optional sign and
    digits) that fits a 64-bit [int]; it checks no range, so every
    such integer, inside 1..65535 or not, is the port of the Target. *)
Theorem host_port_accepts_any_integer (host portStr : string) :
  plain host = true -> plain portStr = true ->
  HasPrefix portStr "//" = false ->
  parseTarget ToLower (host +:+ ":" +:+ portStr) =
    if isNumeric portStr && inInt64 (numericValue portStr)
    then Ok (host, numericValue portStr, "https")
    else Err (Errorf ("invalid port: " +:+ portStr)).
Proof. apply parseTarget_host_port. Qed.

Lemma allDigits_plain (s : string) : allDigits s = true -> plain s = true.
Proof.
  induction s as [|c rest IH]; simpl; [done|].
  intros [Hc Hrest]%andb_prop. rewrite (IH Hrest), andb_true_r.
  unfold hostByte.
  destruct (decide (c = ":"%char)) as [->|]; [done|].
  destruct (decide (c = "["%char)) as [->|]; [done|].
  destruct (decide (c = "]"%char)) as [->|]; [done|].
  by rewrite !bool_decide_eq_false_2.
Qed.

Lemma isNumeric_plain (s : string) :
  isNumeric s = true -> plain s = true /\ HasPrefix s "//" = false.
Proof.
  destruct s as [|c rest]; [done|]. unfold isNumeric, isSign.
  destruct (bool_decide (c = "-"%char)) eqn:Hneg;
    [|destruct (bool_decide (c = "+"%char)) eqn:Hpos]; cbn [orb].
  1-2: (intros [_ Hd%allDigits_plain]%andb_prop;
        (apply bool_decide_eq_true in Hneg as -> ||
         apply bool_decide_eq_true in Hpos as ->);
        split; [simpl; by rewrite Hd | done]).
  intros Hd. split; [by apply allDigits_plain|].
  simpl in Hd. apply andb_prop in Hd as [Hc _].
  rewrite HasPrefix_String. destruct (decide ("/"%char = c)) as [<-|]; done.
Qed.

Lemma cut_scheme (scheme : string) :
  Contains scheme ":" = false ->
  Contains (scheme +:+ "://") "://" = true /\
  cut (scheme +:+ "://") "://" = (scheme, "").
Proof.
  induction scheme as [|b l IH]; [done|].
  cbn [Contains]. rewrite HasPrefix_String.
  intros [Hb Hl]%orb_false_elim. specialize (IH Hl) as [IH1 IH2].
  rewrite append_String. cbn [Contains cut]. rewrite IH1, IH2, orb_true_r.
  split; [done|]. rewrite HasPrefix_String.
  by destruct (decide (":"%char = b)).
Qed.

(** C3 (amended): the resolver has no check for an empty host.  The
    empty string, a colon followed by a decimal integer, and a scheme
    followed by nothing all resolve, to a Target whose host is empty. *)
Theorem empty_host_is_resolved (scheme portStr : string) :
  Contains scheme ":" = false ->
  isNumeric portStr && inInt64 (numericValue portStr) = true ->
  parseTarget ToLower "" = Ok ("", 443%Z, "https") /\
  parseTarget ToLower (":" +:+ portStr) = Ok ("", numericValue portStr, "https") /\
  parseTarget ToLower (scheme +:+ "://") =
    Ok ("", defaultPort (ToLower scheme), ToLower scheme).
Proof.
  intros Hscheme Hnum. split_and!.
  - reflexivity.
  - pose proof Hnum as [[Hp Hs]%isNumeric_plain _]%andb_prop.
    change (":" +:+ portStr) with ("" +:+ ":" +:+ portStr).
    rewrite parseTarget_host_port by done. by rewrite Hnum.
  - unfold parseTarget.
    destruct (cut_scheme scheme Hscheme) as [-> ->]. reflexivity.
Qed.

End ResolverProperties.

Lemma host_port_accepts_any_integer_example :
  (plain "example.com" = true /\ plain "70000" = true /\
   HasPrefix "70000" "//" = false) /\
  parseTarget asciiToLower "example.com:70000" = Ok ("example.com", 70000%Z, "https").
Proof.
  split; [by repeat split|].
  apply (host_port_accepts_any_integer asciiToLower "example.com" "70000");
    reflexivity.
Defined.

Lemma out_of_range_port_is_resolved :
  exists server port protocol,
    parseTarget asciiToLower "example.com:70000" = Ok (server, port, protocol) /\
    ~ (1 <= port <= 65535)%Z.
Proof.
  exists "example.com", 70000%Z, "https". split; [reflexivity | lia].
Qed.

Lemma empty_host_is_resolved_example :
  (Contains "https" ":" = false /\
   isNumeric "443" && inInt64 (numericValue "443") = true) /\
  parseTarget asciiToLower "" = Ok ("", 443%Z, "https") /\
  parseTarget asciiToLower ":443" = Ok ("", 443%Z, "https") /\
  parseTarget asciiToLower "https://" = Ok ("", 443%Z, "https").
Proof.
  split; [by split|].
  apply (empty_host_is_resolved asciiToLower "https" "443"); reflexivity.
Defined.

Lemma empty_host_is_not_an_error :
  is_ok (parseTarget asciiToLower "") = true /\
  is_ok (parseTarget asciiToLower ":443") = true /\
  is_ok (parseTarget asciiToLower "https://") = true /\
  (forall target, target ∈ [""; ":443"; "https://"] ->
     exists port protocol,
       parseTarget asciiToLower target = Ok ("", port, protocol)).
Proof.
  split_and!; try reflexivity.
  intros target Ht.
  repeat (apply elem_of_cons in Ht as [->|Ht]; [by eexists _, _|]).
  by apply elem_of_nil in Ht.
Qed.

(** ** The STARTTLS negotiation *)

Ltac unfold_M :=
  unfold osCreate, pemEncode, fileWrite, dial, read, write, handshake,
    printUsageInstructions, wrapErr, defer, try, fallible, ask, throw,
    emitted, emit, Printf, setFile, when, exists_,
    mbind, M_bind, mret, M_ret in *.

Section Negotiation.

Variable env : Env.

(** C8: the pop3 negotiation, step by step and for every environment.
    The retrieval connects; when the connection stands it sets the
    deadline and reads the greeting once; when that read succeeds it
    writes [STLS\r\n] once; when that write succeeds it reads one
    response; when that read succeeds it shakes hands, on the same
    connection.  Nothing else is written, every step but the first
    happens only after the one before it has succeeded, and the
    connection is closed at the end.  The result is the peer's chain when
    all five operations succeed, and the error of the first one that
    fails otherwise. *)
Theorem pop3_negotiation (server : string) (port : Z) (config : Config) (w : World) :
  let c := connections w in
  let t := tick w in
  let r := getPOP3Certificates env server port config w in
  net (snd r) =
    net w ++ Dial (address server port) ::
      (if answer env t then
         SetReadDeadline c :: Read c ::
           (if answer env (t + 1) then
              Write c ("STLS" +:+ CRLF) ::
                (if answer env (t + 2) then
                   Read c ::
                     (if answer env (t + 3)
                      then [Handshake c server (InsecureSSL config)] else [])
                 else [])
            else []) ++ [Close c]
       else []) /\
  fst r =
    if answer env t then
      if answer env (t + 1) then
        if answer env (t + 2) then
          if answer env (t + 3) then
            if answer env (t + 4) then Ok (peer_chain env (t + 4))
            else Err (Wrap "TLS handshake failed" (EnvError (t + 4)))
          else Err (Wrap "failed to read STARTTLS response" (EnvError (t + 3)))
        else Err (Wrap "failed to send STARTTLS" (EnvError (t + 2)))
      else Err (Wrap "failed to read server greeting" (EnvError (t + 1)))
    else Err (EnvError t).
Proof.
  intros c t r. subst r t c.
  replace (tick w + 1) with (S (tick w)) by lia.
  replace (tick w + 2) with (S (S (tick w))) by lia.
  replace (tick w + 3) with (S (S (S (tick w)))) by lia.
  replace (tick w + 4) with (S (S (S (S (tick w))))) by lia.
  unfold getPOP3Certificates, getTLSCertificatesWithSTARTTLS. unfold_M.
  change (String.eqb "pop3" "smtp") with false.
  change (String.eqb "pop3" "imap") with false.
  change (String.eqb "pop3" "pop3") with true.
  repeat (cbn; match goal with
               | |- context [answer ?e ?t] => destruct (answer e t) eqn:?
               end);
    cbn; by rewrite <- ?app_assoc.
Qed.

End Negotiation.

(** ** Frames: what a computation leaves alone *)

Section Frames.

Context (R : relation World) `{!PreOrder R}.

Lemma frames_ret {A} (a : A) : frames R (mret a).
Proof. intros w. reflexivity. Qed.

Lemma frames_throw {A} (e : error) : frames R (@throw A e).
Proof. intros w. reflexivity. Qed.

Lemma frames_bind {A B} (m : M A) (f : A -> M B) :
  frames R m -> (forall a, frames R (f a)) -> frames R (m ≫= f).
Proof.
  intros Hm Hf w. unfold mbind, M_bind. specialize (Hm w).
  destruct (m w) as [[a|e] w1]; [|done]. etrans; [done|]. apply Hf.
Qed.

Lemma frames_try {A} (m : M A) : frames R m -> frames R (try m).
Proof. intros Hm w. unfold try. specialize (Hm w). by destruct (m w). Qed.

Lemma frames_wrapErr {A} msg (m : M A) : frames R m -> frames R (wrapErr msg m).
Proof.
  intros Hm w. unfold wrapErr. specialize (Hm w). by destruct (m w) as [[a|e] w1].
Qed.

Lemma frames_defer {A} cleanup (m : M A) :
  frames R m -> (forall w, R w (cleanup w)) -> frames R (defer cleanup m).
Proof.
  intros Hm Hc w. unfold defer. specialize (Hm w).
  destruct (m w) as [r w1]. etrans; [done|]. apply Hc.
Qed.

Lemma frames_when (b : bool) (m : M unit) : frames R m -> frames R (when b m).
Proof. destruct b; [done|]. intros _. apply frames_ret. Qed.

End Frames.

Global Instance sameNet_preorder : PreOrder sameNet.
Proof. split; [done|]. intros x y z H1 H2. unfold sameNet in *. congruence. Qed.
Global Instance sameFiles_preorder : PreOrder sameFiles.
Proof. split; [done|]. intros x y z H1 H2. unfold sameFiles in *. congruence. Qed.
Global Instance sameExcept_preorder name : PreOrder (sameExcept name).
Proof.
  split; [done|]. intros x y z H1 H2 f Hf. by rewrite H2, H1.
Qed.
Global Instance keepsExisting_preorder : PreOrder keepsExisting.
Proof.
  split; [done|]. intros x y z H1 H2 f Hf.
  rewrite H2, H1; [done..|]. by rewrite H1.
Qed.

Ltac frames_step :=
  lazymatch goal with
  | |- frames _ (match ?x with _ => _ end) => destruct x
  | |- frames ?R _ =>
      first
        [ apply (frames_ret R) | apply (frames_throw R)
        | apply (frames_bind R); [|intros ?]
        | apply (frames_try R) | apply (frames_wrapErr R)
        | apply (frames_when R)
        | apply (frames_defer R); [|intros ?] ]
  end.

Ltac destruct_answers :=
  repeat (cbn; match goal with
               | |- context [answer ?e ?t] => destruct (answer e t) eqn:?
               end).

(** Running on when no operation fails. *)
Ltac all_succeed Hok :=
  repeat (cbn; match goal with
               | |- context [answer ?e ?t] => rewrite (Hok t)
               end); cbn.

Ltac frames_prim :=
  unfold frames; intros; unfold_M; unfold sameNet, sameFiles, sameExcept;
  destruct_answers; cbn; intros;
  rewrite ?lookup_insert_ne by done; done.

Ltac frames_auto := repeat frames_step; try frames_prim.

Section Writers.

Variable env : Env.

(** *** No writer touches the network *)




(** *** The bundle writer writes one file *)

Lemma bundleLoop_sameExcept filename verbose n i certs :
  frames (sameExcept filename) (bundleLoop env filename verbose n i certs).
Proof.
  revert i. induction certs as [|c rest IH]; intros i; cbn [bundleLoop].
  - frames_auto.
  - frames_step; [|frames_step; [|frames_step]]; try apply IH; frames_auto.
Qed.

Lemma createCertificateBundle_sameExcept certs filename verbose :
  frames (sameExcept filename)
    (createCertificateBundle env certs filename verbose).
Proof.
  unfold createCertificateBundle.
  frames_step; [|frames_step]; try apply bundleLoop_sameExcept; frames_auto.
Qed.

(** *** The individual writer never touches a file that exists *)

Lemma frames_bind_at {A B} R `{!PreOrder R} (m : M A) (f : A -> M B) w :
  R w (snd (m w)) -> (forall a, frames R (f a)) -> R w (snd ((m ≫= f) w)).
Proof.
  intros Hm Hf. unfold mbind, M_bind.
  destruct (m w) as [[a|e] w1]; [|done]. etrans; [done|]. apply Hf.
Qed.

Lemma individualLoop_keepsExisting verbose i certs :
  frames keepsExisting (individualLoop env verbose i certs).
Proof.
  revert i. induction certs as [|c rest IH]; intros i; cbn [individualLoop].
  - by frames_step.
  - intros w. unfold mbind at 1, M_bind at 1, exists_ at 1.
    apply (frames_bind_at keepsExisting); [|intros ?; apply IH].
    destruct (bool_decide _) eqn:Hpresent.
    + destruct verbose; by cbn.
    + apply bool_decide_eq_false in Hpresent.
      assert (forall f, is_Some (fs w !! f) ->
                        generateCertFilename c (i + 1) <> f) as Hne
        by (by intros f Hf <-).
      unfold_M. destruct_answers; cbn; intros f Hf; cbn;
        rewrite ?lookup_insert_eq;
        by rewrite ?lookup_insert_ne by (by apply Hne).
Qed.

(** *** When every operation succeeds *)

Lemma bundleLoop_ok filename verbose n i certs w :
  allSucceed env -> n = i + length certs -> certs <> [] ->
  exists w',
    bundleLoop env filename verbose n i certs w = (Ok tt, w') /\
    fs w' = <[filename := default "" (fs w !! filename) +:+ bundleText certs]> (fs w).
Proof.
  intros Hok. revert i w.
  induction certs as [|c rest IH]; intros i w Hn Hne; [done|].
  cbn [bundleLoop].
  destruct rest as [|c' rest].
  - rewrite bool_decide_eq_false_2 by (simpl in Hn; lia).
    unfold_M. destruct verbose; repeat (progress (cbn; rewrite ?Hok));
      by eexists.
  - rewrite bool_decide_eq_true_2 by (simpl in Hn; lia).
    set (tail := c' :: rest) in *.
    unfold_M.
    destruct verbose; repeat (progress (cbn -[bundleLoop]; rewrite ?Hok));
      (edestruct (IH (S i)) as (w' & -> & Hfs); [subst tail; simpl in *; lia|done|]);
      (eexists; split; [done|]); rewrite Hfs; cbn;
      rewrite !lookup_insert_eq, !insert_insert_eq; cbn;
      subst tail; cbn [bundleText]; by rewrite ?append_assoc.
Qed.

Lemma createCertificateBundle_ok certs filename verbose w :
  allSucceed env ->
  exists w',
    createCertificateBundle env certs filename verbose w = (Ok tt, w') /\
    fs w' = <[filename := bundleText certs]> (fs w).
Proof.
  intros Hok. unfold createCertificateBundle.
  destruct certs as [|c rest].
  - unfold_M. repeat (progress (cbn; rewrite ?Hok)). by eexists.
  - set (certs := c :: rest).
    unfold mbind at 1, M_bind at 1, osCreate. unfold_M.
    repeat (progress (cbn -[bundleLoop certs]; rewrite ?Hok)).
    edestruct (bundleLoop_ok filename verbose (length certs) 0 certs)
      as (w' & -> & Hfs); [done..|].
    eexists; split; [done|]. cbn. rewrite Hfs. cbn.
    by rewrite lookup_insert_eq, insert_insert_eq.
Qed.

Lemma individualLoop_ok verbose i certs w :
  allSucceed env ->
  exists w',
    individualLoop env verbose i certs w = (Ok tt, w') /\
    forall f, fs w' !! f =
              match fs w !! f with
              | Some old => Some old
              | None => (fun c => pem.block (Raw c)) <$> firstNamed f i certs
              end.
Proof.
  intros Hok. revert i w.
  induction certs as [|c rest IH]; intros i w.
  - eexists; split; [done|]. intros f. cbn. by destruct (fs w !! f).
  - cbn [individualLoop firstNamed].
    unfold mbind at 1, M_bind at 1, exists_ at 1.
    destruct (bool_decide _) eqn:Hpresent.
    + apply bool_decide_eq_true in Hpresent as [old Hold].
      unfold_M.
      destruct verbose; cbn;
        (edestruct (IH (S i)) as (w' & -> & Hfs));
        (eexists; split; [done|]); intros f; rewrite Hfs; cbn;
        (destruct (String.eqb_spec (generateCertFilename c (i + 1)) f) as [<-|];
         [by rewrite Hold | done]).
    + apply bool_decide_eq_false in Hpresent.
      apply eq_None_not_Some in Hpresent.
      unfold_M. repeat (progress (cbn; rewrite ?Hok)).
      edestruct (IH (S i)) as (w' & -> & Hfs).
      eexists; split; [done|]. intros f. rewrite Hfs. cbn.
      rewrite lookup_insert_eq, insert_insert_eq. cbn.
      destruct (String.eqb_spec (generateCertFilename c (i + 1)) f) as [<-|Hne].
      * by rewrite lookup_insert_eq, Hpresent.
      * by rewrite lookup_insert_ne.
Qed.

End Writers.

(** ** PEM blocks in a text *)







(** ** File names *)

Lemma lastByte_app (s t : string) :
  t <> "" -> lastByte (s +:+ t) = lastByte t.
Proof.
  intros Ht. induction s as [|c s IH]; [done|].
  rewrite append_String. cbn [lastByte]. rewrite IH.
  destruct (s +:+ t) eqn:Hst; [|done].
  destruct s, t; done.
Qed.

Lemma generateCertFilename_last (c : Certificate) (i : nat) :
  lastByte (generateCertFilename c i) = Some "t"%char.
Proof.
  unfold generateCertFilename.
  destruct (negb _); [by rewrite lastByte_app|].
  destruct (DNSNames c); rewrite <- ?append_assoc; by rewrite lastByte_app.
Qed.

(** An individual file is never the bundle: the one ends in [.crt], the
    other in [.pem]. *)
Lemma generateCertFilename_not_bundle (c : Certificate) (i : nat) (server : string) :
  generateCertFilename c i <> bundleName server.
Proof.
  intros Heq. pose proof (generateCertFilename_last c i) as Hlast.
  rewrite Heq in Hlast. unfold bundleName in Hlast.
  by rewrite lastByte_app in Hlast.
Qed.

(** ** The invocation *)

Ltac unfold_get :=
  unfold getCertificates, getPOP3Certificates, getIMAPCertificates,
    getSMTPCertificates, getTLSCertificates, getTLSCertificatesWithSTARTTLS.

Section Invocation.

Variable ToLower : string -> string.
Variable env : Env.

Lemma getCertificates_sameFiles server port protocol config :
  frames sameFiles (getCertificates env server port protocol config).
Proof.
  unfold_get.
  repeat first [frames_step | destruct (String.eqb _ _) | destruct (_ || _)];
    try frames_prim.
Qed.


Lemma bind_ok {A B} (m : M A) (f : A -> M B) w a w1 :
  m w = (Ok a, w1) -> (m ≫= f) w = f a w1.
Proof. intros H. unfold mbind, M_bind. by rewrite H. Qed.

Lemma wrapErr_ok {A} msg (m : M A) w a w1 :
  m w = (Ok a, w1) -> wrapErr msg m w = (Ok a, w1).
Proof. intros H. unfold wrapErr. by rewrite H. Qed.

Lemma announce_ok (b : bool) line w :
  exists w0, when b (Printf line) w = (Ok tt, w0) /\
             fs w0 = fs w /\ net w0 = net w /\ tick w0 = tick w.
Proof. destruct b; by eexists. Qed.

Lemma getCertificates_ok server port protocol config w :
  allSucceed env ->
  exists w1 k,
    getCertificates env server port protocol config w = (Ok (peer_chain env k), w1) /\
    fs w1 = fs w.
Proof.
  intros Hok.
  assert (exists w1 k, getCertificates env server port protocol config w =
                       (Ok (peer_chain env k), w1)) as (w1 & k & Hget).
  { unfold_get.
    repeat (destruct (String.eqb protocol _)); cbn [orb];
      unfold_M; all_succeed Hok; by eexists _, _. }
  exists w1, k. split; [done|].
  pose proof (getCertificates_sameFiles server port protocol config w) as Hfs.
  by rewrite Hget in Hfs.
Qed.

(** With a mocked peer and no failing operation the invocation
    succeeds, and this is the directory it leaves. *)
Lemma extractCertificates_ok config w server port protocol certs :
  parseTarget ToLower (Target config) = Ok (server, port, protocol) ->
  allSucceed env -> (forall k, peer_chain env k = certs) -> certs <> [] ->
  exists w',
    extractCertificates ToLower env config w = (Ok tt, w') /\
    forall f,
      fs w' !! f =
      if decide (f = bundleName server) then Some (bundleText certs)
      else match fs w !! f with
           | Some old => Some old
           | None => (fun c => pem.block (Raw c)) <$> firstNamed f 0 certs
           end.
Proof.
  intros Hparse Hok Hchain Hne. unfold extractCertificates. rewrite Hparse.
  edestruct announce_ok as (w0 & Hann & Hfs0 & _).
  erewrite bind_ok by exact Hann.
  destruct (getCertificates_ok server port protocol config w0 Hok)
    as (w1 & k & Hget & Hfs1).
  rewrite Hchain in Hget.
  erewrite bind_ok by (apply wrapErr_ok; exact Hget).
  rewrite bool_decide_eq_false_2 by (by destruct certs).
  destruct (createCertificateBundle_ok env certs (bundleName server)
              (Verbose config) w1 Hok) as (w2 & Hbundle & Hfs2).
  erewrite bind_ok by (apply wrapErr_ok; exact Hbundle).
  destruct (individualLoop_ok env (Verbose config) 0 certs w2 Hok)
    as (w3 & Hind & Hfs3).
  erewrite bind_ok by (apply wrapErr_ok; exact Hind).
  eexists; split; [done|]. intros f. cbn. rewrite Hfs3, Hfs2, Hfs1, Hfs0.
  destruct (decide (f = bundleName server)) as [->|Hf].
  - by rewrite lookup_insert_eq.
  - by rewrite lookup_insert_ne.
Qed.


Global Instance keepsExistingExcept_preorder name :
  PreOrder (keepsExistingExcept name).
Proof.
  split; [by intros x f|]. intros x y z H1 H2 f Hf Hx.
  rewrite H2, H1; [done..|]. by rewrite H1.
Qed.

Lemma frames_weaken {A} (R R' : relation World) (m : M A) :
  (forall w w', R w w' -> R' w w') -> frames R m -> frames R' m.
Proof. intros HR Hm w. apply HR, Hm. Qed.

(** Whatever the environment does and however the invocation ends, a
    file that existed before and is not the bundle has its contents
    afterwards. *)
Lemma extractCertificates_keeps_existing config server port protocol :
  parseTarget ToLower (Target config) = Ok (server, port, protocol) ->
  frames (keepsExistingExcept (bundleName server))
    (extractCertificates ToLower env config).
Proof.
  intros Hparse. unfold extractCertificates. rewrite Hparse.
  repeat first
    [ apply (frames_weaken sameFiles), getCertificates_sameFiles;
      by intros w w' Hw f _ _; rewrite Hw
    | apply (frames_weaken (sameExcept (bundleName server))),
        createCertificateBundle_sameExcept;
      by intros w w' Hw f Hf _; apply Hw
    | apply (frames_weaken keepsExisting), individualLoop_keepsExisting;
      by intros w w' Hw f _ Hf; apply Hw
    | frames_step ];
    by intros w f.
Qed.

(** C9: a file that already has the name derived for a certificate of
    the chain keeps its contents, the collision is no error, the run
    succeeds and the bundle is written in full. *)
Theorem existing_file_left_alone config w server port protocol certs j c old :
  parseTarget ToLower (Target config) = Ok (server, port, protocol) ->
  allSucceed env -> (forall k, peer_chain env k = certs) ->
  certs !! j = Some c ->
  fs w !! generateCertFilename c (j + 1) = Some old ->
  exists w',
    extractCertificates ToLower env config w = (Ok tt, w') /\
    fs w' !! generateCertFilename c (j + 1) = Some old /\
    fs w' !! bundleName server = Some (bundleText certs).
Proof.
  intros Hparse Hok Hchain Hj Hold.
  assert (certs <> []) as Hne by (by destruct certs).
  destruct (extractCertificates_ok config w _ _ _ _ Hparse Hok Hchain Hne)
    as (w' & Hrun & Hfs).
  exists w'. split_and!; [done| |].
  - rewrite Hfs, Hold.
    by rewrite decide_False by apply generateCertFilename_not_bundle.
  - rewrite Hfs. by rewrite decide_True.
Qed.

(** C7: when the handshake succeeds with a chain of zero certificates
    the invocation ends with the error "no certificates found", which
    no other stage returns, and the directory is as it was. *)
Theorem no_certificates_no_files config w server port protocol :
  parseTarget ToLower (Target config) = Ok (server, port, protocol) ->
  allSucceed env -> (forall k, peer_chain env k = []) ->
  exists w',
    extractCertificates ToLower env config w =
      (Err (Errorf "no certificates found"), w') /\
    fs w' = fs w.
Proof.
  intros Hparse Hok Hchain. unfold extractCertificates. rewrite Hparse.
  edestruct announce_ok as (w0 & Hann & Hfs0 & _).
  erewrite bind_ok by exact Hann.
  destruct (getCertificates_ok server port protocol config w0 Hok)
    as (w1 & k & Hget & Hfs1).
  rewrite Hchain in Hget.
  erewrite bind_ok by (apply wrapErr_ok; exact Hget).
  exists w1. split; [done|]. congruence.
Qed.

End Invocation.

Section IndividualFiles.

Variable env : Env.

Lemma firstNamed_is_Some f i certs :
  is_Some (firstNamed f i certs) <-> f ∈ certNames i certs.
Proof.
  revert i. induction certs as [|c rest IH]; intros i; cbn.
  - split; [by intros [? ?] | by intros ?%elem_of_nil].
  - rewrite elem_of_cons, <- IH.
    destruct (String.eqb_spec (generateCertFilename c (i + 1)) f) as [<-|Hne].
    + split; [by left | by eexists].
    + split; [by right | by intros [?|?]].
Qed.

(** C5 (amended): when no operation fails, the individual-file phase
    creates one file for every derived name that did not exist when it
    started, with the PEM block of the first certificate of the chain
    that has this name, and leaves every other file as it was.  Two
    certificates with one derived name give one file. *)
Theorem individual_files_one_per_name (certs : list Certificate)
    (verbose : bool) (w : World) :
  allSucceed env ->
  exists w',
    createIndividualCertificates env certs verbose w = (Ok tt, w') /\
    (forall f, fs w' !! f =
               match fs w !! f with
               | Some old => Some old
               | None => (fun c => pem.block (Raw c)) <$> firstNamed f 0 certs
               end) /\
    dom (fs w') = dom (fs w) ∪ list_to_set (certNames 0 certs).
Proof.
  intros Hok. unfold createIndividualCertificates.
  destruct (individualLoop_ok env verbose 0 certs w Hok) as (w' & Hrun & Hfs).
  exists w'. split_and!; [done..|].
  apply set_eq. intros f.
  rewrite elem_of_union, !elem_of_dom, elem_of_list_to_set,
    <- firstNamed_is_Some, Hfs.
  destruct (fs w !! f) as [old|], (firstNamed f 0 certs) as [c|]; cbn;
    split; intros H; eauto; by destruct H as [[? ?]|[? ?]].
Qed.

End IndividualFiles.

(** ** A failure while the individual files are written *)

Global Instance keepsFile_preorder name : PreOrder (keepsFile name).
Proof. split; [by intros x H|]. intros x y z H1 H2 H. by apply H2, H1. Qed.

Section Failure.

Variable ToLower : string -> string.
Variable env : Env.

Lemma wrapErr_inv {A} msg (m : M A) w r w1 :
  wrapErr msg m w = (r, w1) ->
  match r with
  | Ok a => m w = (Ok a, w1)
  | Err e => exists e0, e = Wrap msg e0 /\ m w = (Err e0, w1)
  end.
Proof.
  unfold wrapErr. destruct (m w) as [[a|e0] w2]; intros [= <- <-]; eauto.
Qed.

Lemma bind_inv {A B} (m : M A) (f : A -> M B) w r w2 :
  (m ≫= f) w = (r, w2) ->
  (exists a w1, m w = (Ok a, w1) /\ f a w1 = (r, w2)) \/
  (exists e, m w = (Err e, w2) /\ r = Err e).
Proof.
  unfold mbind, M_bind. destruct (m w) as [[a|e] w1]; intros H.
  - left. by exists a, w1.
  - right. exists e. by injection H as <- <-.
Qed.

Lemma bundleLoop_keepsFile filename verbose n i certs :
  frames (keepsFile filename) (bundleLoop env filename verbose n i certs).
Proof.
  revert i. induction certs as [|c rest IH]; intros i; cbn [bundleLoop].
  - by frames_step.
  - frames_step; [|frames_step; [|frames_step]]; try apply IH;
      repeat frames_step;
      unfold frames, keepsFile; intros; unfold_M; destruct_answers; cbn;
      rewrite ?lookup_insert_eq; eauto.
Qed.

Lemma createCertificateBundle_creates certs filename verbose w w2 :
  createCertificateBundle env certs filename verbose w = (Ok tt, w2) ->
  is_Some (fs w2 !! filename).
Proof.
  unfold createCertificateBundle. intros H.
  apply bind_inv in H as [([] & w1 & Hcreate & H)|(e & _ & [=])].
  assert (is_Some (fs w1 !! filename)) as H1.
  { revert Hcreate. unfold_M. destruct_answers; intros [= <-]; cbn.
    rewrite lookup_insert_eq. eauto. }
  apply bind_inv in H as [([] & w1' & Hloop & H)|(e & _ & [=])].
  pose proof (bundleLoop_keepsFile filename verbose (length certs) 0 certs w1) as Hk.
  rewrite Hloop in Hk. specialize (Hk H1).
  revert H. unfold_M. cbn. by intros [= <-].
Qed.

(** The loop stops at the first certificate whose file cannot be
    written; the certificates before it have their files. *)
Lemma individualLoop_err verbose i certs w e w' :
  individualLoop env verbose i certs w = (Err e, w') ->
  exists pre c post,
    certs = pre ++ c :: post /\
    fs w !! generateCertFilename c (i + length pre + 1) = None /\
    forall j c', pre !! j = Some c' ->
                 is_Some (fs w' !! generateCertFilename c' (i + j + 1)).
Proof.
  revert i w. induction certs as [|c rest IH]; intros i w H; [done|].
  cbn [individualLoop] in H.
  pose proof (individualLoop_keepsExisting env verbose (S i) rest) as Hkeep.
  apply bind_inv in H as [(present & w0 & Hstat & H)|(e0 & [=] & _)].
  unfold exists_ in Hstat. injection Hstat as <- <-.
  apply bind_inv in H as [([] & w1 & Hstep & H)|(e0 & Hstep & [= ->])].
  - (* this certificate is dealt with; the failure is further on *)
    assert (is_Some (fs w1 !! generateCertFilename c (i + 1)) /\
            forall f, fs w1 !! f = None -> fs w !! f = None) as [Hc Hmono].
    { destruct (bool_decide _) eqn:Hpresent.
      - apply bool_decide_eq_true in Hpresent.
        destruct verbose; injection Hstep as <-; by cbn.
      - revert Hstep. unfold_M. destruct_answers; intros [= <-]; cbn.
        rewrite lookup_insert_eq. split; [eauto|].
        intros f. rewrite insert_insert_eq.
        intros [? _]%lookup_insert_None. done. }
    pose proof (Hkeep w1) as Hkeep1. rewrite H in Hkeep1. cbn in Hkeep1.
    apply IH in H as (pre & c0 & post & -> & Hnone & Hpre).
    exists (c :: pre), c0, post. split_and!; [done| |].
    + apply Hmono. rewrite <- Hnone. f_equal. f_equal. cbn. lia.
    + intros [|j] c' Hj; cbn in Hj.
      * injection Hj as <-. rewrite Nat.add_0_r.
        (* the file of [c] exists in [w1], so the rest of the loop keeps it *)
        by rewrite Hkeep1.
      * replace (i + S j + 1) with (S i + j + 1) by lia. by apply Hpre.
  - (* the failure is here: the file did not exist and cannot be written *)
    exists [], c, rest. split_and!; [done| |by intros j c' ?].
    destruct (bool_decide _) eqn:Hpresent.
    + destruct verbose; discriminate Hstep.
    + apply bool_decide_eq_false in Hpresent.
      apply eq_None_not_Some in Hpresent. cbn. by rewrite Nat.add_0_r.
Qed.

Lemma getCertificates_chain server port protocol config w certs w1 :
  getCertificates env server port protocol config w = (Ok certs, w1) ->
  exists k, certs = peer_chain env k.
Proof.
  unfold_get.
  repeat (destruct (String.eqb protocol _)); cbn [orb];
    unfold_M; destruct_answers; intros [= <- <-]; by eexists.
Qed.

(** Every name of the chain has a file once the loop has returned
    without an error. *)
Lemma individualLoop_all_present verbose i certs w w' :
  individualLoop env verbose i certs w = (Ok tt, w') ->
  forall name, name ∈ certNames i certs -> is_Some (fs w' !! name).
Proof.
  revert i w. induction certs as [|c rest IH]; intros i w H name Hname.
  { by apply elem_of_nil in Hname. }
  cbn [individualLoop certNames] in *.
  apply bind_inv in H as [(present & w0 & Hstat & H)|(e0 & _ & [=])].
  unfold exists_ in Hstat. injection Hstat as <- <-.
  apply bind_inv in H as [([] & w1 & Hstep & H)|(e0 & _ & [=])].
  apply elem_of_cons in Hname as [->|Hname]; [|by eapply IH].
  pose proof (individualLoop_keepsExisting env verbose (S i) rest w1) as Hkeep.
  rewrite H in Hkeep. cbn in Hkeep.
  assert (is_Some (fs w1 !! generateCertFilename c (i + 1))) as Hc.
  { destruct (bool_decide _) eqn:Hpresent.
    - apply bool_decide_eq_true in Hpresent.
      destruct verbose; injection Hstep as <-; by cbn.
    - revert Hstep. unfold_M. destruct_answers; intros [= <-]; cbn.
      rewrite lookup_insert_eq. eauto. }
  by rewrite Hkeep.
Qed.

(** The loop over a chain whose first part is dealt with without error
    goes on with the rest. *)
Lemma individualLoop_app verbose i pre rest w wp :
  individualLoop env verbose i pre w = (Ok tt, wp) ->
  individualLoop env verbose i (pre ++ rest) w =
  individualLoop env verbose (i + length pre) rest wp.
Proof.
  revert i w. induction pre as [|c pre IH]; intros i w H.
  - injection H as <-. cbn. by rewrite Nat.add_0_r.
  - cbn [individualLoop app length] in *.
    apply bind_inv in H as [(present & w0 & Hstat & H)|(e0 & [=] & _)].
    apply bind_inv in H as [([] & w1 & Hstep & H)|(e0 & _ & [=])].
    erewrite bind_ok by exact Hstat. erewrite bind_ok by exact Hstep.
    rewrite (IH _ _ H). f_equal. lia.
Qed.

Lemma certNames_lookup i certs j c :
  certs !! j = Some c -> generateCertFilename c (i + j + 1) ∈ certNames i certs.
Proof.
  revert i j. induction certs as [|c0 rest IH]; intros i [|j] H; try done;
    cbn in H |- *.
  - injection H as ->. rewrite Nat.add_0_r. apply elem_of_cons. by left.
  - apply elem_of_cons. right.
    replace (i + S j + 1) with (S i + j + 1) by lia. by apply IH.
Qed.

(** The step of the loop for a certificate whose file does not exist and
    whose creation or encoding fails. *)
Lemma individualLoop_fails verbose i c post wp :
  fs wp !! generateCertFilename c (i + 1) = None ->
  answer env (tick wp) = false \/ answer env (S (tick wp)) = false ->
  exists w',
    individualLoop env verbose i (c :: post) wp =
      (Err (EnvError (if answer env (tick wp) then S (tick wp) else tick wp)), w') /\
    forall f, f <> generateCertFilename c (i + 1) -> fs w' !! f = fs wp !! f.
Proof.
  intros Hnone Hfail. cbn [individualLoop]. unfold exists_ at 1.
  unfold mbind at 1, M_bind at 1. rewrite Hnone.
  rewrite bool_decide_eq_false_2 by (by intros [? ?]).
  unfold_M. cbn.
  destruct (answer env (tick wp)) eqn:Hcreate; cbn.
  - destruct Hfail as [?|Hencode]; [done|]. rewrite Hencode. cbn.
    eexists. split; [done|]. intros f Hf. cbn.
    by rewrite !lookup_insert_ne.
  - by eexists.
Qed.

(** C10: the output is not atomic.  Let the retrieval and the bundle
    succeed (worlds [w1], [w2]), let the individual files of the
    certificates before certificate [c] be dealt with without error
    (world [wp]), and let the creation of the file of [c], which does not
    exist yet, or its encoding fail: these are the next two operations,
    numbered [tick wp] and [S (tick wp)].
    Then the invocation ends with the terminal error "failed to create
    individual certificates" around the error of that operation; the
    bundle file is on disk as it was written, the certificates before [c]
    have their files on disk, and no file that was there before the
    invocation has been removed. *)
Theorem individual_failure_leaves_files
    config w server port protocol w0 w1 w2 wp pre c post :
  parseTarget ToLower (Target config) = Ok (server, port, protocol) ->
  when (Verbose config) (Printf (connectingLine server port protocol)) w =
    (Ok tt, w0) ->
  getCertificates env server port protocol config w0 = (Ok (pre ++ c :: post), w1) ->
  createCertificateBundle env (pre ++ c :: post) (bundleName server)
    (Verbose config) w1 = (Ok tt, w2) ->
  createIndividualCertificates env pre (Verbose config) w2 = (Ok tt, wp) ->
  fs wp !! generateCertFilename c (length pre + 1) = None ->
  answer env (tick wp) = false \/ answer env (S (tick wp)) = false ->
  let k := if answer env (tick wp) then S (tick wp) else tick wp in
  exists w',
    extractCertificates ToLower env config w =
      (Err (Wrap "failed to create individual certificates" (EnvError k)), w') /\
    is_Some (fs w' !! bundleName server) /\
    fs w' !! bundleName server = fs w2 !! bundleName server /\
    (forall j c', pre !! j = Some c' ->
                  is_Some (fs w' !! generateCertFilename c' (j + 1))) /\
    (forall f, is_Some (fs w !! f) -> is_Some (fs w' !! f)).
Proof.
  intros Hparse Hann Hget Hbundle Hpre Hnone Hfail k.
  unfold createIndividualCertificates in Hpre.
  destruct (individualLoop_fails (Verbose config) (length pre) c post wp
              Hnone Hfail) as (w' & Hrun & Hfs').
  fold k in Hrun.
  (* the files at the stages of the invocation *)
  assert (fs w0 = fs w) as Hfs0.
  { revert Hann. destruct (Verbose config); by intros [= <-]. }
  pose proof (getCertificates_sameFiles env server port protocol config w0) as Hfs1.
  rewrite Hget in Hfs1. cbn in Hfs1.
  pose proof (createCertificateBundle_sameExcept env (pre ++ c :: post)
                (bundleName server) (Verbose config) w1) as Hfs2.
  rewrite Hbundle in Hfs2. cbn in Hfs2.
  pose proof (createCertificateBundle_creates _ _ _ _ _ Hbundle) as Hcreated.
  pose proof (individualLoop_keepsExisting env (Verbose config) 0 pre w2) as Hkeep.
  rewrite Hpre in Hkeep. cbn in Hkeep.
  pose proof (individualLoop_all_present _ _ _ _ _ Hpre) as Hall.
  assert (forall f, is_Some (fs wp !! f) -> is_Some (fs w' !! f)) as Hstay.
  { intros f Hf. rewrite Hfs'; [done|]. intros ->.
    rewrite Hnone in Hf. by destruct Hf. }
  exists w'. split_and!.
  - unfold extractCertificates. rewrite Hparse.
    fold (connectingLine server port protocol).
    erewrite bind_ok by exact Hann.
    erewrite bind_ok by (apply wrapErr_ok; exact Hget).
    rewrite bool_decide_eq_false_2 by (rewrite length_app; cbn; lia).
    erewrite bind_ok by (apply wrapErr_ok; exact Hbundle).
    unfold mbind, M_bind, wrapErr, createIndividualCertificates.
    rewrite (individualLoop_app _ _ _ _ _ _ Hpre).
    change (0 + length pre) with (length pre). by rewrite Hrun.
  - apply Hstay. by rewrite Hkeep.
  - rewrite Hfs' by (apply not_eq_sym, generateCertFilename_not_bundle).
    by apply Hkeep.
  - intros j c' Hj. apply Hstay, Hall.
    apply (certNames_lookup 0) in Hj. by cbn in Hj.
  - intros f Hf. apply Hstay.
    destruct (decide (f = bundleName server)) as [->|Hne].
    + by rewrite Hkeep.
    + rewrite Hkeep; rewrite Hfs2 by done; by rewrite Hfs1, Hfs0.
Qed.

(** X26: the converse.  When an invocation ends with the error of the
    individual-file phase, in whatever environment, the chain splits at
    a certificate whose file did not exist before the invocation and
    could not be created or written: the bundle file, written before, is
    on disk, the certificates before that one have their files on disk,
    and no file that was there before the invocation has been removed. *)
Theorem individual_error_leaves_files config w e w' :
  extractCertificates ToLower env config w =
    (Err (Wrap "failed to create individual certificates" e), w') ->
  exists server port protocol k pre c post,
    parseTarget ToLower (Target config) = Ok (server, port, protocol) /\
    peer_chain env k = pre ++ c :: post /\
    fs w !! generateCertFilename c (length pre + 1) = None /\
    is_Some (fs w' !! bundleName server) /\
    (forall j c', pre !! j = Some c' ->
                  is_Some (fs w' !! generateCertFilename c' (j + 1))) /\
    (forall f, is_Some (fs w !! f) -> is_Some (fs w' !! f)).
Proof.
  unfold extractCertificates.
  destruct (parseTarget _ _) as [[[server port] protocol]|e0]; [|done].
  intros H. edestruct announce_ok as (w0 & Hann & Hfs0 & _).
  erewrite bind_ok in H by exact Hann.
  apply bind_inv in H as [(certs & w1 & Hget & H)|(e1 & Hget & Heq)];
    [|apply wrapErr_inv in Hget as (? & -> & _); discriminate Heq].
  apply wrapErr_inv in Hget.
  pose proof (getCertificates_sameFiles env server port protocol config w0) as Hfs1.
  rewrite Hget in Hfs1. cbn in Hfs1.
  apply getCertificates_chain in Hget as [k ->].
  destruct (bool_decide _); [done|].
  apply bind_inv in H as [([] & w2 & Hbundle & H)|(e1 & Hbundle & Heq)];
    [|apply wrapErr_inv in Hbundle as (? & -> & _); discriminate Heq].
  apply wrapErr_inv in Hbundle.
  pose proof (createCertificateBundle_sameExcept env (peer_chain env k)
                (bundleName server) (Verbose config) w1) as Hfs2.
  rewrite Hbundle in Hfs2. cbn in Hfs2.
  apply createCertificateBundle_creates in Hbundle.
  apply bind_inv in H as [([] & w3 & _ & H)|(e1 & Hind & [= <-])];
    [discriminate H|].
  apply wrapErr_inv in Hind as (e2 & _ & Hind).
  pose proof (individualLoop_keepsExisting env (Verbose config) 0
                (peer_chain env k) w2) as Hkeep.
  unfold createIndividualCertificates in Hind.
  rewrite Hind in Hkeep. cbn in Hkeep.
  apply individualLoop_err in Hind as (pre & c & post & Hsplit & Hnone & Hpre).
  assert (forall f, is_Some (fs w !! f) -> is_Some (fs w2 !! f)) as Hgrow.
  { intros f Hf. destruct (decide (f = bundleName server)) as [->|Hne]; [done|].
    rewrite Hfs2 by done. by rewrite Hfs1, Hfs0. }
  exists server, port, protocol, k, pre, c, post. split_and!; try done.
  - destruct (fs w !! _) eqn:Hw; [|done].
    destruct (Hgrow _ (mk_is_Some _ _ Hw)) as [x Hx]. cbn in Hnone. congruence.
  - by rewrite Hkeep.
  - intros f Hf. rewrite Hkeep; by apply Hgrow.
Qed.

End Failure.

(** ** Connections *)

Section Connections.

Variable ToLower : string -> string.
Variable env : Env.







End Connections.

(** * Concrete runs *)

Lemma allOk_allSucceed chain : allSucceed (allOk chain).
Proof. by intros k. Qed.

Example pop3_run :
  net (snd (run (allOk chain2) "pop3://mail.example.com" world0)) =
  [Dial "mail.example.com:110"; SetReadDeadline 0; Read 0;
   Write 0 ("STLS" +:+ CRLF); Read 0;
   Handshake 0 "mail.example.com" false; Close 0].
Proof. reflexivity. Qed.



Lemma duplicate_names_one_file :
  let certs := [cert "Example CA" "old root"; cert "Example CA" "new root"] in
  let r := createIndividualCertificates (allOk certs) certs false world0 in
  length certs = 2 /\ fs world0 = ∅ /\ fst r = Ok tt /\
  map_to_list (fs (snd r)) = [("Example_CA.crt", pem.block "old root")].
Proof. by vm_compute. Qed.

Lemma individual_files_one_per_name_example :
  allSucceed (allOk chain2) /\
  exists w',
    createIndividualCertificates (allOk chain2) chain2 false withLeaf = (Ok tt, w') /\
    (forall f, fs w' !! f =
               match fs withLeaf !! f with
               | Some old => Some old
               | None => (fun c => pem.block (Raw c)) <$> firstNamed f 0 chain2
               end) /\
    dom (fs w') = dom (fs withLeaf) ∪ list_to_set (certNames 0 chain2).
Proof.
  split; [apply allOk_allSucceed|].
  apply (individual_files_one_per_name (allOk chain2) chain2 false withLeaf).
  apply allOk_allSucceed.
Defined.


Lemma no_certificates_no_files_example :
  parseTarget asciiToLower "example.com" = Ok ("example.com", 443%Z, "https") /\
  exists w',
    run (allOk []) "example.com" withLeaf =
      (Err (Errorf "no certificates found"), w') /\
    fs w' = fs withLeaf.
Proof.
  split; [reflexivity|].
  apply (no_certificates_no_files asciiToLower (allOk [])
           (cfg "example.com") withLeaf "example.com" 443%Z "https").
  - reflexivity.
  - apply allOk_allSucceed.
  - reflexivity.
Defined.

Lemma existing_file_left_alone_example :
  fs withLeaf !! generateCertFilename (cert "mail.example.com" "leaf") (0 + 1) =
    Some "kept" /\
  exists w',
    run (allOk chain2) "imap://mail.example.com" withLeaf = (Ok tt, w') /\
    fs w' !! generateCertFilename (cert "mail.example.com" "leaf") (0 + 1) =
      Some "kept" /\
    fs w' !! bundleName "mail.example.com" = Some (bundleText chain2).
Proof.
  split; [by vm_compute|].
  apply (existing_file_left_alone asciiToLower (allOk chain2)
           (cfg "imap://mail.example.com") withLeaf "mail.example.com" 143%Z "imap"
           chain2 0 (cert "mail.example.com" "leaf") "kept").
  - reflexivity.
  - apply allOk_allSucceed.
  - reflexivity.
  - reflexivity.
  - by vm_compute.
Defined.

Lemma individual_failure_leaves_files_example :
  let env := failingAt 11 chain2 in
  let config := cfg "pop3://mail.example.com" in
  let leaf := cert "mail.example.com" "leaf" in
  let ca := cert "Example CA" "root" in
  let w1 := snd (getCertificates env "mail.example.com" 110 "pop3" config world0) in
  let w2 := snd (createCertificateBundle env ([leaf] ++ [ca])
                   (bundleName "mail.example.com") false w1) in
  let wp := snd (createIndividualCertificates env [leaf] false w2) in
  (parseTarget asciiToLower (Target config) = Ok ("mail.example.com", 110%Z, "pop3") /\
   when (Verbose config) (Printf (connectingLine "mail.example.com" 110 "pop3")) world0 =
     (Ok tt, world0) /\
   getCertificates env "mail.example.com" 110 "pop3" config world0 =
     (Ok ([leaf] ++ [ca]), w1) /\
   createCertificateBundle env ([leaf] ++ [ca]) (bundleName "mail.example.com")
     (Verbose config) w1 = (Ok tt, w2) /\
   createIndividualCertificates env [leaf] (Verbose config) w2 = (Ok tt, wp) /\
   fs wp !! generateCertFilename ca (length [leaf] + 1) = None /\
   tick wp = 11 /\
   (answer env (tick wp) = false \/ answer env (S (tick wp)) = false)) /\
  exists w',
    run env "pop3://mail.example.com" world0 =
      (Err (Wrap "failed to create individual certificates" (EnvError 11)), w') /\
    is_Some (fs w' !! bundleName "mail.example.com") /\
    fs w' !! bundleName "mail.example.com" = fs w2 !! bundleName "mail.example.com" /\
    (forall j c', [leaf] !! j = Some c' ->
                  is_Some (fs w' !! generateCertFilename c' (j + 1))) /\
    (forall f, is_Some (fs world0 !! f) -> is_Some (fs w' !! f)).
Proof.
  intros env config leaf ca w1 w2 wp.
  split; [split_and!; try (by vm_compute); by left|].
  apply (individual_failure_leaves_files asciiToLower env config world0
           "mail.example.com" 110%Z "pop3" world0 w1 w2 wp [leaf] ca []);
    try (by vm_compute).
  by left.
Defined.

Lemma individual_error_leaves_files_example :
  let r := run (failingAt 11 chain2) "pop3://mail.example.com" world0 in
  fst r = Err (Wrap "failed to create individual certificates" (EnvError 11)) /\
  exists server port protocol k pre c post,
    parseTarget asciiToLower "pop3://mail.example.com" = Ok (server, port, protocol) /\
    peer_chain (failingAt 11 chain2) k = pre ++ c :: post /\
    fs world0 !! generateCertFilename c (length pre + 1) = None /\
    is_Some (fs (snd r) !! bundleName server) /\
    (forall j c', pre !! j = Some c' ->
                  is_Some (fs (snd r) !! generateCertFilename c' (j + 1))) /\
    (forall f, is_Some (fs world0 !! f) -> is_Some (fs (snd r) !! f)).
Proof.
  split; [by vm_compute|].
  apply (individual_error_leaves_files asciiToLower (failingAt 11 chain2)
           (cfg "pop3://mail.example.com") world0 (EnvError 11)).
  by vm_compute.
Defined.

(** The same when it is the encoding that fails: the file of the second
    certificate has been created and is left behind, empty. *)
Example encode_failure_is_terminal :
  let r := run (failingAt 12 chain2) "pop3://mail.example.com" world0 in
  fst r = Err (Wrap "failed to create individual certificates" (EnvError 12)) /\
  map_to_list (fs (snd r)) =
  [("mail.example.com_bundle.pem", bundleText chain2);
   ("mail.example.com.crt", pem.block "leaf");
   ("Example_CA.crt", "")].
Proof. by vm_compute. Qed.

Example failure_leaves_bundle_and_first_file :
  map_to_list (fs (snd (run (failingAt 11 chain2) "pop3://mail.example.com" world0))) =
  [("mail.example.com_bundle.pem", bundleText chain2);
   ("mail.example.com.crt", pem.block "leaf")].
Proof. by vm_compute. Qed.

(** * Further properties *)

(** ** More of the target resolver *)

Lemma sliceFrom_app (l r : string) : sliceFrom (String.length l) (l +:+ r) = r.
Proof. induction l as [|c l IH]; [by destruct r|]. by rewrite append_String. Qed.

Lemma sliceTo_app (l r : string) : sliceTo (String.length l) (l +:+ r) = l.
Proof.
  induction l as [|c l IH]; [by destruct r|].
  rewrite append_String. cbn. by rewrite IH.
Qed.

Lemma length_append (l r : string) :
  String.length (l +:+ r) = String.length l + String.length r.
Proof. induction l as [|c l IH]; [done|]. rewrite append_String. cbn. by rewrite IH. Qed.

Lemma IndexByte_app_here (c : ascii) (l r : string) :
  IndexByte c l = None -> IndexByte c (l +:+ String c r) = Some (String.length l).
Proof.
  induction l as [|b l IH]; simpl.
  - by destruct (decide (c = c)).
  - destruct (decide (b = c)); [done|].
    destruct (IndexByte c l); [done|]. intros _. by rewrite IH.
Qed.

Lemma cut_mark (l rest : string) :
  IndexByte ":" l = None ->
  Contains (l +:+ "://" +:+ rest) "://" = true /\
  cut (l +:+ "://" +:+ rest) "://" = (l, rest).
Proof.
  induction l as [|b l IH].
  - intros _. split; [done|]. by destruct rest.
  - cbn [IndexByte]. destruct (decide (b = ":"%char)) as [|Hb]; [done|].
    destruct (IndexByte ":" l) eqn:Hl; [done|]. intros _.
    destruct (IH eq_refl) as [IH1 IH2].
    rewrite append_String. cbn [Contains cut]. rewrite IH1, IH2, orb_true_r.
    split; [done|]. rewrite HasPrefix_String.
    by destruct (decide (":"%char = b)) as [<-|].
Qed.

Lemma before_byte (c : ascii) (l r : string) :
  IndexByte c l = None -> before (l +:+ String c r) (String c "") = l.
Proof.
  intros Hl. unfold before. rewrite Contains_byte_app.
  induction l as [|b l IH].
  - simpl. by destruct (decide (c = c)).
  - cbn in Hl. destruct (decide (b = c)) as [|Hb]; [done|].
    destruct (IndexByte c l) eqn:Hl'; [done|].
    rewrite append_String. cbn [cut]. rewrite HasPrefix_String.
    destruct (decide (c = b)) as [->|_]; [done|].
    specialize (IH eq_refl). destruct (cut _ _) as [x y]. cbn in *. by rewrite IH.
Qed.

Lemma before_absent (c : ascii) (s : string) :
  IndexByte c s = None -> before s (String c "") = s.
Proof. intros H. unfold before. by rewrite (Contains_None _ _ _ H). Qed.

Section MoreResolver.

Variable ToLower : string -> string.

(** X1: a target [scheme://host] whose host has neither a colon nor a
    slash resolves to that host, the lower-cased scheme and the default
    port of that scheme: 443 for https, 587 for smtp, 143 for imap, 110
    for pop3 and 443 for every other scheme. *)
Theorem scheme_gets_default_port (scheme host : string) :
  IndexByte ":" scheme = None ->
  IndexByte ":" host = None ->
  IndexByte "/" host = None ->
  parseTarget ToLower (scheme +:+ "://" +:+ host) =
    Ok (host, defaultPort (ToLower scheme), ToLower scheme).
Proof.
  intros Hs Hc Hp. unfold parseTarget.
  destruct (cut_mark scheme host Hs) as [-> ->].
  rewrite (before_absent _ _ Hp). by rewrite (Contains_None _ _ _ Hc).
Qed.

(** X2: everything from the first slash after [scheme://] on is dropped
    before the server part is looked at: a target with a path resolves
    like the target without it, to the same Target or the same error. *)
Theorem path_is_ignored (scheme serverPart path : string) :
  IndexByte ":" scheme = None ->
  IndexByte "/" serverPart = None ->
  parseTarget ToLower (scheme +:+ "://" +:+ serverPart +:+ "/" +:+ path) =
  parseTarget ToLower (scheme +:+ "://" +:+ serverPart).
Proof.
  intros Hs Hp. unfold parseTarget.
  destruct (cut_mark scheme (serverPart +:+ "/" +:+ path) Hs) as [-> ->].
  destruct (cut_mark scheme serverPart Hs) as [-> ->].
  change ("/" +:+ path) with (String "/" path).
  by rewrite (before_byte _ _ _ Hp), (before_absent _ _ Hp).
Qed.

(** X3: in [scheme://host:port] the explicit port replaces the default
    of the scheme: the target resolves to the lower-cased scheme with
    that port when the port part is a decimal integer of 64 bits, and is
    an "invalid port" error otherwise. *)
Theorem scheme_explicit_port (scheme host portStr : string) :
  IndexByte ":" scheme = None ->
  plain host = true -> plain portStr = true ->
  IndexByte "/" host = None -> IndexByte "/" portStr = None ->
  parseTarget ToLower (scheme +:+ "://" +:+ host +:+ ":" +:+ portStr) =
    if isNumeric portStr && inInt64 (numericValue portStr)
    then Ok (host, numericValue portStr, ToLower scheme)
    else Err (Errorf ("invalid port: " +:+ portStr)).
Proof.
  intros Hs Hh Hp Hsh Hsp. unfold parseTarget, hostAndPort.
  destruct (cut_mark scheme (host +:+ ":" +:+ portStr) Hs) as [-> ->].
  change (":" +:+ portStr) with (String ":" portStr).
  rewrite before_absent
    by (apply IndexByte_app_None; [done|]; cbn; by rewrite Hsp).
  rewrite Contains_byte_app.
  change (String ":" portStr) with (":" +:+ portStr).
  rewrite (SplitHostPort_plain _ _ Hh Hp).
  destruct (isNumeric portStr && inInt64 (numericValue portStr)) eqn:Hnum.
  - apply andb_prop in Hnum as [Hn Hr]. by rewrite Atoi_complete.
  - by apply Atoi_fails in Hnum as [e ->].
Qed.

(** X4: a target without a colon is taken as the host as it stands, not
    trimmed and not lower-cased, with port 443 and scheme https; this
    form never fails. *)
Theorem bare_host_resolves (target : string) :
  IndexByte ":" target = None ->
  parseTarget ToLower target = Ok (target, 443%Z, "https").
Proof.
  intros H. unfold parseTarget.
  by rewrite !(Contains_None _ _ _ H).
Qed.

End MoreResolver.

Lemma splitLast_Contains (c : ascii) (s front back : string) :
  splitLast c s = Some (front, back) -> Contains s (String c "") = true.
Proof.
  revert front back. induction s as [|b s IH]; intros front back; [done|].
  cbn [splitLast Contains]. rewrite HasPrefix_String.
  destruct (splitLast c s) as [[l r]|].
  - intros _. rewrite (IH l r eq_refl). apply orb_true_r.
  - destruct (decide (b = c)) as [->|]; [|done]. intros _.
    by destruct (decide (c = c)).
Qed.

Section Brackets.

Variable ToLower : string -> string.

Lemma SplitHostPort_bracketed (host portStr : string) :
  IndexByte "[" host = None -> IndexByte "]" host = None ->
  plain portStr = true ->
  net.SplitHostPort ("[" +:+ host +:+ "]:" +:+ portStr) = Ok (host, portStr).
Proof.
  intros Ho Hq (Hc2 & Ho2 & Hq2)%plain_no_bytes.
  unfold net.SplitHostPort.
  change ("[" +:+ host +:+ "]:" +:+ portStr)
    with (String "[" (host +:+ String "]" (String ":" portStr))).
  assert (String "[" (host +:+ String "]" (String ":" portStr)) =
          (String "[" (host +:+ "]")) +:+ String ":" portStr) as Hfront.
  { rewrite append_String. f_equal. by rewrite append_assoc. }
  rewrite Hfront at 1. rewrite (splitLast_app _ _ _ Hc2).
  rewrite HasPrefix_String. destruct (decide ("["%char = "["%char)); [|done].
  cbn [HasPrefix IndexByte].
  destruct (decide ("["%char = "]"%char)); [done|].
  rewrite (IndexByte_app_here _ _ _ Hq). cbn [fmap option_fmap option_map].
  cbn [String.length].
  rewrite !length_append. cbn [String.length].
  rewrite bool_decide_eq_false_2 by lia.
  rewrite bool_decide_eq_true_2 by lia.
  cbn [sliceFrom]. replace (S (String.length host) - 1) with (String.length host) by lia.
  rewrite sliceTo_app.
  replace (S (String.length host) + 1) with (S (S (String.length host))) by lia.
  change (sliceFrom (S (S (String.length host))) (String "[" ?s))
    with (sliceFrom (S (String.length host)) s).
  assert (sliceFrom (S (String.length host))
            (host +:+ String "]" (String ":" portStr)) = String ":" portStr) as ->.
  { replace (host +:+ String "]" (String ":" portStr))
      with ((host +:+ "]") +:+ String ":" portStr) by (by rewrite append_assoc).
    replace (S (String.length host)) with (String.length (host +:+ "]"))
      by (rewrite length_append; cbn; lia).
    apply sliceFrom_app. }
  rewrite bool_decide_eq_false_2.
  - rewrite bool_decide_eq_false_2; [done|].
    cbn. rewrite Hq2. by intros [? ?].
  - rewrite IndexByte_app_None; [by intros [? ?]|done|].
    cbn. by rewrite Ho2.
Qed.

(** X5: a host in brackets may hold colons.  A target [[host]:port]
    without [://], whose port part has no colon and no bracket, resolves
    to the text between the brackets, whatever colons it has, when the
    port part is a decimal integer of 64 bits, and is an "invalid port"
    error otherwise. *)
Theorem bracketed_host (host portStr : string) :
  IndexByte "[" host = None -> IndexByte "]" host = None ->
  plain portStr = true ->
  Contains ("[" +:+ host +:+ "]:" +:+ portStr) "://" = false ->
  parseTarget ToLower ("[" +:+ host +:+ "]:" +:+ portStr) =
    if isNumeric portStr && inInt64 (numericValue portStr)
    then Ok (host, numericValue portStr, "https")
    else Err (Errorf ("invalid port: " +:+ portStr)).
Proof.
  intros Ho Hq Hp Hmark. unfold parseTarget, hostAndPort. rewrite Hmark.
  rewrite (SplitHostPort_bracketed _ _ Ho Hq Hp).
  assert (Contains ("[" +:+ host +:+ "]:" +:+ portStr) ":" = true) as ->.
  { change ("[" +:+ host +:+ "]:" +:+ portStr)
      with (String "[" (host +:+ String "]" (String ":" portStr))).
    replace (String "[" (host +:+ String "]" (String ":" portStr)))
      with ((String "[" (host +:+ "]")) +:+ String ":" portStr)
      by (rewrite append_String; f_equal; by rewrite append_assoc).
    apply Contains_byte_app. }
  destruct (isNumeric portStr && inInt64 (numericValue portStr)) eqn:Hnum.
  - apply andb_prop in Hnum as [Hn Hr]. by rewrite Atoi_complete.
  - by apply Atoi_fails in Hnum as [e ->].
Qed.

(** X6: without brackets a second colon is an error.  A target without
    [://] that does not start with a bracket and has a colon before its
    last colon is refused with "too many colons in address", whatever
    follows the last colon. *)
Theorem second_colon_is_refused (target front back : string) :
  Contains target "://" = false ->
  HasPrefix target "[" = false ->
  splitLast ":" target = Some (front, back) ->
  is_Some (IndexByte ":" front) ->
  parseTarget ToLower target =
    Err (AddrError "too many colons in address" target).
Proof.
  intros Hmark Hopen Hsplit Hcolon. unfold parseTarget, hostAndPort.
  rewrite Hmark, (splitLast_Contains _ _ _ _ Hsplit).
  unfold net.SplitHostPort. rewrite Hsplit, Hopen.
  by rewrite bool_decide_eq_true_2.
Qed.

End Brackets.

Lemma scheme_gets_default_port_example :
  (IndexByte ":" "SMTP" = None /\ IndexByte ":" "mail.example.com" = None /\
   IndexByte "/" "mail.example.com" = None) /\
  parseTarget asciiToLower "SMTP://mail.example.com" =
    Ok ("mail.example.com", 587%Z, "smtp").
Proof.
  split; [by repeat split|].
  apply (scheme_gets_default_port asciiToLower "SMTP" "mail.example.com");
    reflexivity.
Defined.

Lemma path_is_ignored_example :
  (IndexByte ":" "https" = None /\ IndexByte "/" "github.com:8443" = None) /\
  parseTarget asciiToLower "https://github.com:8443/vehub/ca-bundle" =
  parseTarget asciiToLower "https://github.com:8443".
Proof.
  split; [by split|].
  apply (path_is_ignored asciiToLower "https" "github.com:8443" "vehub/ca-bundle");
    reflexivity.
Defined.

Lemma scheme_explicit_port_example :
  (IndexByte ":" "smtp" = None /\ plain "smtp.gmail.com" = true /\
   plain "25" = true /\ IndexByte "/" "smtp.gmail.com" = None /\
   IndexByte "/" "25" = None) /\
  parseTarget asciiToLower "smtp://smtp.gmail.com:25" =
    Ok ("smtp.gmail.com", 25%Z, "smtp").
Proof.
  split; [by repeat split|].
  apply (scheme_explicit_port asciiToLower "smtp" "smtp.gmail.com" "25");
    reflexivity.
Defined.

Lemma bare_host_resolves_example :
  IndexByte ":" "Example.COM " = None /\
  parseTarget asciiToLower "Example.COM " = Ok ("Example.COM ", 443%Z, "https").
Proof.
  split; [reflexivity|].
  apply (bare_host_resolves asciiToLower "Example.COM "). reflexivity.
Defined.

Lemma bracketed_host_example :
  (IndexByte "[" "2001:db8::1" = None /\ IndexByte "]" "2001:db8::1" = None /\
   plain "8443" = true /\ Contains "[2001:db8::1]:8443" "://" = false) /\
  parseTarget asciiToLower "[2001:db8::1]:8443" =
    Ok ("2001:db8::1", 8443%Z, "https").
Proof.
  split; [by repeat split|].
  apply (bracketed_host asciiToLower "2001:db8::1" "8443"); reflexivity.
Defined.

Lemma second_colon_is_refused_example :
  (Contains "2001:db8::1" "://" = false /\ HasPrefix "2001:db8::1" "[" = false /\
   splitLast ":" "2001:db8::1" = Some ("2001:db8:", "1") /\
   is_Some (IndexByte ":" "2001:db8:")) /\
  parseTarget asciiToLower "2001:db8::1" =
    Err (AddrError "too many colons in address" "2001:db8::1").
Proof.
  split; [split_and!; try reflexivity; by eexists|].
  apply (second_colon_is_refused asciiToLower "2001:db8::1" "2001:db8:" "1");
    try reflexivity.
  by eexists.
Defined.

(** ** More of the naming policy *)

Lemma allAllowed_app (s t : string) :
  allAllowed (s +:+ t) = allAllowed s && allAllowed t.
Proof.
  induction s as [|c s IH]; [done|].
  rewrite append_String. cbn [allAllowed]. by rewrite IH, andb_assoc.
Qed.

Lemma replaceAll_allAllowed (skip : nat) (s : string) :
  allAllowed (replaceAll skip s) = true.
Proof.
  revert skip. induction s as [|b rest IH]; intros skip; [done|].
  cbn [replaceAll]. destruct skip as [|k]; [|apply IH].
  destruct (allowed b) eqn:Hb; cbn [allAllowed]; [by rewrite Hb, IH|].
  by rewrite IH.
Qed.

Lemma replaceAll_length (skip : nat) (s : string) :
  String.length (replaceAll skip s) <= String.length s.
Proof.
  revert skip. induction s as [|b rest IH]; intros skip; [done|].
  cbn [replaceAll]. destruct skip as [|k].
  - destruct (allowed b); cbn [String.length]; apply le_n_S, IH.
  - cbn [String.length]. etrans; [apply IH|lia].
Qed.

Lemma pretty_N_char_allowed (x : N) : allowed (pretty_N_char x) = true.
Proof. unfold pretty_N_char. by repeat case_match. Qed.

Lemma pretty_N_go_allAllowed (x : N) (s : string) :
  allAllowed s = true -> allAllowed (pretty_N_go x s) = true.
Proof.
  revert s. induction (N.lt_wf_0 x) as [x _ IH]. intros s Hs.
  destruct (decide (x = 0)%N) as [->|Hx]; [by rewrite pretty_N_go_0|].
  rewrite pretty_N_go_step by lia.
  apply IH; [apply N.div_lt; lia|].
  cbn [allAllowed]. by rewrite pretty_N_char_allowed.
Qed.

Lemma pretty_nat_allAllowed (n : nat) : allAllowed (pretty n) = true.
Proof.
  unfold pretty, pretty_nat, pretty, pretty_N.
  destruct (decide _); [done|]. by apply pretty_N_go_allAllowed.
Qed.

Lemma append_inv_tail (a b s : string) : a +:+ s = b +:+ s -> a = b.
Proof.
  revert b. induction a as [|c a IH]; intros [|d b] H.
  - done.
  - apply (f_equal String.length) in H. rewrite append_String in H.
    cbn [String.length] in H. rewrite !length_append in H. cbn in H. lia.
  - apply (f_equal String.length) in H. rewrite append_String in H.
    cbn [String.length] in H. rewrite !length_append in H. cbn in H. lia.
  - rewrite !append_String in H. injection H as -> H. f_equal. by apply IH.
Qed.

Lemma sanitizeFilename_allAllowed (name : string) :
  allAllowed (sanitizeFilename name) = true.
Proof. rewrite sanitizeFilename_replaceAll. apply replaceAll_allAllowed. Qed.

(** X7: whatever the name, [sanitizeFilename] returns only bytes of
    [[A-Za-z0-9._-]]: no path separator, no blank, no control byte and no
    byte of a multi-byte character is left. *)
Theorem sanitizeFilename_class (name : string) :
  allAllowed (sanitizeFilename name) = true.
Proof. apply sanitizeFilename_allAllowed. Qed.

(** X8: [sanitizeFilename] leaves a name as it is exactly when all its
    bytes are in [[A-Za-z0-9._-]]; applied twice it gives what it gives
    applied once. *)
Theorem sanitizeFilename_fixed_points (name : string) :
  (sanitizeFilename name = name <-> allAllowed name = true) /\
  sanitizeFilename (sanitizeFilename name) = sanitizeFilename name.
Proof.
  assert (forall s, allAllowed s = true -> sanitizeFilename s = s) as Hid.
  { intros s Hs. rewrite sanitizeFilename_replaceAll. by apply replaceAll_allowed. }
  split_and!.
  - split; [|apply Hid]. intros <-. apply sanitizeFilename_allAllowed.
  - apply Hid, sanitizeFilename_allAllowed.
Qed.

Lemma replaceAll_skip (k : nat) (s : string) :
  replaceAll k s = replaceAll 0 (sliceFrom k s).
Proof.
  revert k. induction s as [|b rest IH]; intros [|k]; try done.
  cbn [replaceAll sliceFrom]. apply IH.
Qed.

Lemma rune_width_pos (b : ascii) (rest : string) :
  1 <= rune_width (String b rest).
Proof. unfold rune_width. repeat case_match; lia. Qed.

(** X9: [sanitizeFilename] works character by character.  A first byte
    of the class is kept and the rest is sanitized; otherwise the whole
    first character, all the bytes of its UTF-8 encoding (one byte when
    the byte starts no well-formed encoding), becomes one single
    underscore and what follows the character is sanitized.  So the
    result is never longer than the name. *)
Theorem sanitizeFilename_by_character (name : string) :
  sanitizeFilename name =
    match name with
    | EmptyString => EmptyString
    | String b rest =>
        if allowed b then String b (sanitizeFilename rest)
        else String "_" (sanitizeFilename (sliceFrom (rune_width name) name))
    end /\
  String.length (sanitizeFilename name) <= String.length name.
Proof.
  split.
  - rewrite !sanitizeFilename_replaceAll.
    destruct name as [|b rest]; [done|].
    rewrite !sanitizeFilename_replaceAll. cbn [replaceAll].
    destruct (allowed b); [done|]. f_equal.
    rewrite replaceAll_skip. f_equal.
    pose proof (rune_width_pos b rest) as Hpos.
    destruct (rune_width (String b rest)) as [|n]; [lia|].
    cbn [sliceFrom]. by replace (S n - 1) with n by lia.
  - rewrite sanitizeFilename_replaceAll. apply replaceAll_length.
Qed.

(** A character of two bytes gives one underscore. *)
Example sanitize_two_byte_character :
  let e_acute := String (ascii_of_N 195) (String (ascii_of_N 169) EmptyString) in
  String.length e_acute = 2 /\
  sanitizeFilename ("caf" +:+ e_acute +:+ ".example") = "caf_.example".
Proof. by vm_compute. Qed.

(** X10: whatever the certificate and the index, the derived file name
    ends in [.crt] and holds only bytes of [[A-Za-z0-9._-]]; it is never
    empty and never names a file outside the working directory. *)
Theorem generateCertFilename_is_safe (c : Certificate) (index : nat) :
  allAllowed (generateCertFilename c index) = true /\
  HasSuffix (generateCertFilename c index) ".crt".
Proof.
  unfold generateCertFilename, HasSuffix.
  destruct (negb _); [|destruct (DNSNames c) as [|d ?]].
  - split; [|by eexists]. by rewrite allAllowed_app, sanitizeFilename_allAllowed.
  - split; [|exists ("cert_" +:+ pretty index); by rewrite append_assoc].
    by rewrite !allAllowed_app, pretty_nat_allAllowed.
  - split; [|by eexists]. by rewrite allAllowed_app, sanitizeFilename_allAllowed.
Qed.

(** X11: certificates that have neither a common name nor a DNS name get
    different file names at different positions of the chain. *)
Theorem fallback_names_differ (c1 c2 : Certificate) (i j : nat) :
  CommonName c1 = "" -> DNSNames c1 = [] ->
  CommonName c2 = "" -> DNSNames c2 = [] ->
  i <> j ->
  generateCertFilename c1 i <> generateCertFilename c2 j.
Proof.
  intros Hc1 Hd1 Hc2 Hd2 Hij. unfold generateCertFilename.
  rewrite Hc1, Hd1, Hc2, Hd2. cbn [String.eqb negb].
  rewrite <- !append_assoc. intros H%append_inv_tail.
  apply Hij. apply (inj pretty).
  change ("cert_" +:+ ?s) with (String "c" (String "e" (String "r" (String "t" (String "_" s))))) in H.
  by injection H.
Qed.

Lemma fallback_names_differ_example :
  generateCertFilename (cert "" "a") 1 <> generateCertFilename (cert "" "b") 2.
Proof.
  apply (fallback_names_differ (cert "" "a") (cert "" "b") 1 2);
    first [reflexivity | lia].
Defined.

(** ** More of the retrieval *)

Section MoreRetrieval.

Variable env : Env.

(** X12: direct TLS.  The retrieval dials once; when the connection
    stands it shakes hands on it and closes it, whether the handshake
    succeeds or not, and it never reads or writes in the clear.  The
    error of the dial or of the handshake is returned as it is. *)
Theorem direct_tls_events (server : string) (port : Z) (config : Config) (w : World) :
  let c := connections w in
  let r := getTLSCertificates env server port config w in
  net (snd r) =
    net w ++ Dial (address server port) ::
      (if answer env (tick w)
       then [Handshake c server (InsecureSSL config); Close c] else []) /\
  fst r =
    if answer env (tick w) then
      if answer env (S (tick w)) then Ok (peer_chain env (S (tick w)))
      else Err (EnvError (S (tick w)))
    else Err (EnvError (tick w)).
Proof.
  intros c r. subst r c. unfold getTLSCertificates. unfold_M.
  destruct_answers; cbn; by rewrite <- ?app_assoc.
Qed.

(** X13: for imap the events of a retrieval are an initial part of the
    script "connect, set the deadline, read the greeting, write
    [a001 STARTTLS\r\n], read one response, shake hands" on the
    connection just opened, followed by its close; a retrieval that
    succeeds has performed the whole script. *)
Theorem imap_negotiation (server : string) (port : Z) (config : Config) (w : World) :
  let c := connections w in
  let script := imapScript (address server port) server (InsecureSSL config) c in
  let r := getIMAPCertificates env server port config w in
  (exists k, net (snd r) =
             net w ++ take k script ++ (if bool_decide (1 < k) then [Close c] else [])) /\
  (if is_ok (fst r) then net (snd r) = net w ++ script ++ [Close c] else True).
Proof.
  intros c script r. subst r script.
  unfold getIMAPCertificates, getTLSCertificatesWithSTARTTLS. unfold_M.
  change (String.eqb "imap" "smtp") with false.
  change (String.eqb "imap" "imap") with true.
  unfold imapScript.
  destruct_answers; cbn; rewrite <- ?app_assoc; (split; [|done]).
  - by exists 6.
  - by exists 6.
  - by exists 5.
  - by exists 4.
  - by exists 3.
  - by exists 1.
Qed.

(** X14: for smtp the events of the negotiation are an initial part of
    the script "connect, set the deadline, read the greeting, write
    [EHLO localhost\r\n], read, write [STARTTLS\r\n], read, shake hands"
    on the connection just opened, followed by its close; a negotiation
    that succeeds has performed the whole script. *)
Theorem smtp_negotiation (server : string) (port : Z) (config : Config) (w : World) :
  let c := connections w in
  let script := smtpScript (address server port) server (InsecureSSL config) c in
  let r := getTLSCertificatesWithSTARTTLS env server port "smtp" config w in
  (exists k, net (snd r) =
             net w ++ take k script ++ (if bool_decide (1 < k) then [Close c] else [])) /\
  (if is_ok (fst r) then net (snd r) = net w ++ script ++ [Close c] else True).
Proof.
  intros c script r. subst r script.
  unfold getTLSCertificatesWithSTARTTLS. unfold_M.
  change (String.eqb "smtp" "smtp") with true.
  unfold smtpScript.
  destruct_answers; cbn; rewrite <- ?app_assoc; (split; [|done]);
    first [by exists 8 | by exists 7 | by exists 6 | by exists 3 | by exists 1].
Qed.

(** X15: the smtp negotiation does not look at the outcome of its EHLO.
    Once the connection stands and the greeting has been read, the EHLO
    and the read after it are performed and [STARTTLS\r\n] is written,
    whether the EHLO could be written and answered or not. *)
Theorem smtp_ehlo_is_not_checked (server : string) (port : Z) (config : Config)
    (w : World) :
  answer env (tick w) = true ->
  answer env (S (tick w)) = true ->
  let c := connections w in
  let script := smtpScript (address server port) server (InsecureSSL config) c in
  exists rest,
    net (snd (getTLSCertificatesWithSTARTTLS env server port "smtp" config w)) =
    net w ++ take 6 script ++ rest.
Proof.
  intros Hdial Hgreet c script. subst script.
  unfold getTLSCertificatesWithSTARTTLS. unfold_M.
  change (String.eqb "smtp" "smtp") with true.
  unfold smtpScript. cbn. rewrite Hdial. cbn. rewrite Hgreet.
  destruct_answers; cbn; rewrite <- ?app_assoc; cbn; by eexists.
Qed.

(** X16: a protocol that is none of smtp, imap and pop3 has no STARTTLS
    command.  [getTLSCertificatesWithSTARTTLS] finds that out only after
    it has connected and read the greeting: it then returns the
    "unsupported STARTTLS protocol" error, has written nothing, and has
    closed the connection. *)
Theorem unsupported_starttls_protocol (server : string) (port : Z)
    (protocol : string) (config : Config) (w : World) :
  String.eqb protocol "smtp" = false ->
  String.eqb protocol "imap" = false ->
  String.eqb protocol "pop3" = false ->
  answer env (tick w) = true ->
  answer env (S (tick w)) = true ->
  let c := connections w in
  let r := getTLSCertificatesWithSTARTTLS env server port protocol config w in
  fst r = Err (Errorf ("unsupported STARTTLS protocol: " +:+ protocol)) /\
  net (snd r) =
    net w ++ [Dial (address server port); SetReadDeadline c; Read c; Close c].
Proof.
  intros H1 H2 H3 Hdial Hgreet c r. subst r c.
  unfold getTLSCertificatesWithSTARTTLS. unfold_M.
  rewrite H1, H2, H3. cbn. rewrite Hdial. cbn. rewrite Hgreet. cbn.
  by rewrite <- !app_assoc.
Qed.







(** X18: every connection attempt of a retrieval goes to [server:port]
    as resolved, and every TLS handshake of it, the one the SMTP client
    makes in its [StartTLS] included, names the resolved server and
    carries the verification switch of the configuration, whatever the
    protocol and whatever fails. *)
Theorem retrieval_uses_target (server : string) (port : Z)
    (protocol : string) (config : Config) (w : World) :
  exists events,
    net (snd (getCertificates env server port protocol config w)) =
      net w ++ events /\
    Forall (ofRetrieval server port config) events.
Proof.
  unfold_get.
  repeat (destruct (String.eqb protocol _)); cbn [orb];
    unfold_M;
    change (String.eqb "smtp" "smtp") with true;
    change (String.eqb "imap" "smtp") with false;
    change (String.eqb "imap" "imap") with true;
    change (String.eqb "pop3" "smtp") with false;
    change (String.eqb "pop3" "imap") with false;
    change (String.eqb "pop3" "pop3") with true;
    destruct_answers; cbn; rewrite <- ?app_assoc; cbn;
    (eexists; split; [reflexivity|]); by repeat constructor.
Qed.

End MoreRetrieval.

Lemma smtp_ehlo_is_not_checked_example :
  let env := failingAt 2 chain2 in
  (answer env (tick world0) = true /\ answer env (S (tick world0)) = true) /\
  exists rest,
    net (snd (getTLSCertificatesWithSTARTTLS env "mail.example.com" 587 "smtp"
                (cfg "smtp://mail.example.com") world0)) =
    net world0 ++
    take 6 (smtpScript (address "mail.example.com" 587) "mail.example.com"
              (InsecureSSL (cfg "smtp://mail.example.com")) (connections world0)) ++
    rest.
Proof.
  split; [by split|].
  apply (smtp_ehlo_is_not_checked (failingAt 2 chain2) "mail.example.com" 587%Z
           (cfg "smtp://mail.example.com") world0); reflexivity.
Defined.

Lemma unsupported_starttls_protocol_example :
  let r := getTLSCertificatesWithSTARTTLS (allOk chain2) "ftp.example.com" 21 "ftp"
             (cfg "ftp://ftp.example.com") world0 in
  (String.eqb "ftp" "smtp" = false /\ String.eqb "ftp" "imap" = false /\
   String.eqb "ftp" "pop3" = false /\
   answer (allOk chain2) (tick world0) = true /\
   answer (allOk chain2) (S (tick world0)) = true) /\
  fst r = Err (Errorf ("unsupported STARTTLS protocol: " +:+ "ftp")) /\
  net (snd r) =
    net world0 ++ [Dial (address "ftp.example.com" 21); SetReadDeadline (connections world0);
                   Read (connections world0); Close (connections world0)].
Proof.
  split; [by repeat split|].
  apply (unsupported_starttls_protocol (allOk chain2) "ftp.example.com" 21%Z "ftp"
           (cfg "ftp://ftp.example.com") world0); reflexivity.
Defined.

(** ** More of the writers *)

Lemma raises_ret {A} P (a : A) : raises P (mret a).
Proof. by intros w e w'. Qed.

Lemma raises_bind {A B} P (m : M A) (f : A -> M B) :
  raises P m -> (forall a, raises P (f a)) -> raises P (m ≫= f).
Proof.
  intros Hm Hf w e w' H.
  apply bind_inv in H as [(a & w1 & _ & H)|(e0 & H & [= ->])].
  - by eapply Hf.
  - by eapply Hm.
Qed.

Lemma raises_when P (b : bool) (m : M unit) : raises P m -> raises P (when b m).
Proof. destruct b; [done|]. intros _. apply raises_ret. Qed.

Lemma raises_Printf P line : raises P (Printf line).
Proof. by intros w e w'. Qed.

Section MoreWriters.

Variable env : Env.

Lemma raises_osCreate name : raises isEnvError (osCreate env name).
Proof.
  intros w e w'. unfold_M. destruct_answers; intros [= <- <-]. by eexists.
Qed.

Lemma raises_pemEncode name c : raises isEnvError (pemEncode env name c).
Proof.
  intros w e w'. unfold_M. destruct_answers; intros [= <- <-]. by eexists.
Qed.

Lemma raises_bundleLoop filename verbose n i certs :
  raises isEnvError (bundleLoop env filename verbose n i certs).
Proof.
  revert i. induction certs as [|c rest IH]; intros i; cbn [bundleLoop].
  - apply raises_ret.
  - apply raises_bind; [apply raises_when, raises_Printf|intros _].
    apply raises_bind; [apply raises_pemEncode|intros _].
    apply raises_bind; [|intros _; apply IH].
    destruct (bool_decide _); [|apply raises_ret].
    intros w e w'. unfold mbind, M_bind, try.
    by destruct (fileWrite env filename LF w).
Qed.

Lemma raises_createCertificateBundle certs filename verbose :
  raises isEnvError (createCertificateBundle env certs filename verbose).
Proof.
  unfold createCertificateBundle.
  repeat first [ apply raises_osCreate | apply raises_bundleLoop
               | apply raises_Printf | apply raises_bind; [|intros _] ].
Qed.

Lemma raises_individualLoop verbose i certs :
  raises isEnvError (individualLoop env verbose i certs).
Proof.
  revert i. induction certs as [|c rest IH]; intros i; cbn [individualLoop].
  - apply raises_ret.
  - apply raises_bind; [by intros w e w'|intros present].
    apply raises_bind; [|intros _; apply IH].
    destruct present; [apply raises_when, raises_Printf|].
    repeat first [ apply raises_osCreate | apply raises_pemEncode
                 | apply raises_Printf | apply raises_bind; [|intros _] ].
Qed.

(** X19: the separator between two blocks is written without a look at
    the outcome.  For a chain of two certificates, when only the write
    of the separator fails, [createCertificateBundle] still reports
    success, and the bundle holds the two blocks with only that part of
    the line feed between them that reached the file. *)
Theorem separator_failure_is_silent (c1 c2 : Certificate) (filename : string)
    (verbose : bool) (w : World) :
  let t := tick w in
  answer env t = true -> answer env (S t) = true ->
  answer env (S (S t)) = false -> answer env (S (S (S t))) = true ->
  exists w',
    createCertificateBundle env [c1; c2] filename verbose w = (Ok tt, w') /\
    fs w' !! filename =
      Some (pem.block (Raw c1) +:+ sliceTo (short env (S (S t))) LF +:+
            pem.block (Raw c2)).
Proof.
  intros t H0 H1 H2 H3. subst t. unfold createCertificateBundle.
  cbn [bundleLoop].
  rewrite (bool_decide_eq_true_2 (0 < _)) by (simpl; lia).
  rewrite (bool_decide_eq_false_2 (1 < _)) by (simpl; lia).
  unfold_M.
  destruct verbose; cbn; rewrite H0; cbn; rewrite H1; cbn; rewrite H2; cbn;
    rewrite H3; cbn; (eexists; split; [done|]); cbn;
    rewrite !lookup_insert_eq; cbn; by rewrite ?append_assoc.
Qed.

(** With every name of the chain present the loop does nothing that
    could fail and writes nothing. *)
Lemma individualLoop_noop (env2 : Env) verbose i certs w :
  (forall name, name ∈ certNames i certs -> is_Some (fs w !! name)) ->
  exists w',
    individualLoop env2 verbose i certs w = (Ok tt, w') /\
    fs w' = fs w /\ net w' = net w /\ tick w' = tick w.
Proof.
  revert i w. induction certs as [|c rest IH]; intros i w Hall.
  { by exists w. }
  cbn [individualLoop certNames] in *.
  unfold mbind at 1, M_bind at 1, exists_ at 1.
  rewrite bool_decide_eq_true_2 by (apply Hall, list_elem_of_here).
  destruct verbose; unfold_M; cbn.
  - edestruct (IH (S i)) as (w' & -> & Hfs & Hnet & Htick);
      [|by exists w'].
    cbn. intros name Hname. by apply Hall, list_elem_of_further.
  - edestruct (IH (S i) w) as (w' & -> & Hfs & Hnet & Htick);
      [|by exists w'].
    intros name Hname. by apply Hall, list_elem_of_further.
Qed.

(** X20: the individual-file phase can be repeated.  After a phase that
    returned without an error, a second phase over the same chain, in any
    environment, returns without an error, performs no operation that
    could fail and leaves every file as it is. *)
Theorem individual_phase_repeats (env2 : Env) (certs : list Certificate)
    (verbose verbose2 : bool) (w w' : World) :
  createIndividualCertificates env certs verbose w = (Ok tt, w') ->
  exists w'',
    createIndividualCertificates env2 certs verbose2 w' = (Ok tt, w'') /\
    fs w'' = fs w' /\ net w'' = net w' /\ tick w'' = tick w'.
Proof.
  unfold createIndividualCertificates. intros H.
  apply individualLoop_noop. by eapply individualLoop_all_present.
Qed.

End MoreWriters.

Lemma separator_failure_is_silent_example :
  let env := failingAt 2 chain2 in
  (answer env 0 = true /\ answer env 1 = true /\ answer env 2 = false /\
   answer env 3 = true) /\
  exists w',
    createCertificateBundle env [cert "a" "leaf"; cert "b" "root"] "x_bundle.pem"
      false world0 = (Ok tt, w') /\
    fs w' !! "x_bundle.pem" =
      Some (pem.block "leaf" +:+ sliceTo (short env 2) LF +:+ pem.block "root").
Proof.
  split; [by repeat split|].
  apply (separator_failure_is_silent (failingAt 2 chain2)
           (cert "a" "leaf") (cert "b" "root") "x_bundle.pem" false world0);
    reflexivity.
Defined.

Lemma individual_phase_repeats_example :
  createIndividualCertificates (allOk chain2) chain2 false world0 =
    (Ok tt, snd (createIndividualCertificates (allOk chain2) chain2 false world0)) /\
  exists w'',
    createIndividualCertificates (failingAt 0 chain2) chain2 true
      (snd (createIndividualCertificates (allOk chain2) chain2 false world0)) =
      (Ok tt, w'') /\
    fs w'' = fs (snd (createIndividualCertificates (allOk chain2) chain2 false world0)) /\
    net w'' = net (snd (createIndividualCertificates (allOk chain2) chain2 false world0)) /\
    tick w'' = tick (snd (createIndividualCertificates (allOk chain2) chain2 false world0)).
Proof.
  split; [by vm_compute|].
  apply (individual_phase_repeats (allOk chain2) (failingAt 0 chain2) chain2
           false true world0).
  by vm_compute.
Defined.

(** ** More of the invocation *)

Section MoreInvocation.

Variable ToLower : string -> string.
Variable env : Env.

(** X21: an invocation that returns without an error has resolved its
    target and retrieved a non-empty chain, the bundle file and a file
    for every derived name of the chain are on disk, and the usage
    instructions are the last thing printed.  This holds in every
    environment. *)
Theorem success_leaves_all_files config w w' :
  extractCertificates ToLower env config w = (Ok tt, w') ->
  exists server port protocol k,
    parseTarget ToLower (Target config) = Ok (server, port, protocol) /\
    peer_chain env k <> [] /\
    is_Some (fs w' !! bundleName server) /\
    (forall name, name ∈ certNames 0 (peer_chain env k) ->
                  is_Some (fs w' !! name)) /\
    last (out w') = Some (UsageInstructions (bundleName server) server).
Proof.
  unfold extractCertificates.
  destruct (parseTarget _ _) as [[[server port] protocol]|e0]; [|done].
  intros H. edestruct announce_ok as (w0 & Hann & _).
  erewrite bind_ok in H by exact Hann.
  apply bind_inv in H as [(certs & w1 & Hget & H)|(e1 & _ & [=])].
  apply wrapErr_inv in Hget. apply getCertificates_chain in Hget as [k ->].
  destruct (bool_decide _) eqn:Hlen; [done|].
  apply bool_decide_eq_false in Hlen.
  apply bind_inv in H as [([] & w2 & Hbundle & H)|(e1 & _ & [=])].
  apply wrapErr_inv in Hbundle. apply createCertificateBundle_creates in Hbundle.
  apply bind_inv in H as [([] & w3 & Hind & H)|(e1 & _ & [=])].
  apply wrapErr_inv in Hind. unfold createIndividualCertificates in Hind.
  pose proof (individualLoop_keepsExisting env (Verbose config) 0
                (peer_chain env k) w2) as Hkeep.
  rewrite Hind in Hkeep. cbn in Hkeep.
  pose proof (individualLoop_all_present env _ _ _ _ _ Hind) as Hall.
  injection H as <-. cbn.
  exists server, port, protocol, k. split_and!; try done.
  - intros Heq. apply Hlen. by rewrite Heq.
  - by rewrite Hkeep.
  - apply last_snoc.
Qed.

(** X22: every error of an invocation names its stage.  It is "invalid
    target" with nothing done at all, "failed to get certificates" or
    "no certificates found" with no file written, or "failed to create
    bundle" or "failed to create individual certificates" around the
    error of the operating system as it is. *)
Theorem invocation_errors config w e w' :
  extractCertificates ToLower env config w = (Err e, w') ->
  (exists e0, e = Wrap "invalid target" e0 /\ w' = w) \/
  (exists e0, e = Wrap "failed to get certificates" e0 /\ fs w' = fs w) \/
  (e = Errorf "no certificates found" /\ fs w' = fs w) \/
  (exists k, e = Wrap "failed to create bundle" (EnvError k)) \/
  (exists k, e = Wrap "failed to create individual certificates" (EnvError k)).
Proof.
  unfold extractCertificates.
  destruct (parseTarget _ _) as [[[server port] protocol]|e0].
  2: { intros [= <- <-]. left. by eexists. }
  intros H. edestruct announce_ok as (w0 & Hann & Hfs0 & _).
  erewrite bind_ok in H by exact Hann.
  pose proof (getCertificates_sameFiles env server port protocol config w0) as Hfs1.
  apply bind_inv in H as [(certs & w1 & Hget & H)|(e1 & Hget & [= ->])].
  2: { apply wrapErr_inv in Hget as (e0 & -> & Hget). rewrite Hget in Hfs1.
       right. left. exists e0. split; [done|]. cbn in Hfs1. congruence. }
  apply wrapErr_inv in Hget. rewrite Hget in Hfs1. cbn in Hfs1.
  destruct (bool_decide _).
  { injection H as <- <-. right. right. left. split; [done|]. congruence. }
  apply bind_inv in H as [([] & w2 & Hbundle & H)|(e1 & Hbundle & [= ->])].
  2: { apply wrapErr_inv in Hbundle as (e0 & -> & Hbundle).
       apply raises_createCertificateBundle in Hbundle as [k ->].
       do 3 right. left. by exists k. }
  apply bind_inv in H as [([] & w3 & _ & H)|(e1 & Hind & [= ->])]; [done|].
  apply wrapErr_inv in Hind as (e0 & -> & Hind).
  apply raises_individualLoop in Hind as [k ->].
  do 4 right. by exists k.
Qed.

(** X23: when the bundle cannot be created or written the invocation
    stops there: no individual file is written, and every file other
    than the bundle is as it was. *)
Theorem bundle_failure_spares_other_files config w e0 w' :
  extractCertificates ToLower env config w =
    (Err (Wrap "failed to create bundle" e0), w') ->
  exists server port protocol,
    parseTarget ToLower (Target config) = Ok (server, port, protocol) /\
    forall f, f <> bundleName server -> fs w' !! f = fs w !! f.
Proof.
  unfold extractCertificates.
  destruct (parseTarget _ _) as [[[server port] protocol]|e1]; [|done].
  intros H. edestruct announce_ok as (w0 & Hann & Hfs0 & _).
  erewrite bind_ok in H by exact Hann.
  pose proof (getCertificates_sameFiles env server port protocol config w0) as Hfs1.
  apply bind_inv in H as [(certs & w1 & Hget & H)|(e1 & Hget & Heq)];
    [|apply wrapErr_inv in Hget as (? & -> & _); discriminate Heq].
  apply wrapErr_inv in Hget. rewrite Hget in Hfs1. cbn in Hfs1.
  destruct (bool_decide _); [done|].
  pose proof (createCertificateBundle_sameExcept env certs (bundleName server)
                (Verbose config) w1) as Hfs2.
  apply bind_inv in H as [([] & w2 & Hbundle & H)|(e1 & Hbundle & [= <-])].
  - apply bind_inv in H as [([] & w3 & _ & H)|(e1 & Hind & Heq)];
      [done|apply wrapErr_inv in Hind as (? & -> & _); discriminate Heq].
  - apply wrapErr_inv in Hbundle as (e2 & _ & Hbundle).
    rewrite Hbundle in Hfs2. cbn in Hfs2.
    exists server, port, protocol. split; [done|].
    intros f Hf. rewrite Hfs2 by done. by rewrite Hfs1, Hfs0.
Qed.




End MoreInvocation.

Lemma success_leaves_all_files_example :
  let r := run (allOk chain2) "imap://mail.example.com" withLeaf in
  r = (Ok tt, snd r) /\
  exists server port protocol k,
    parseTarget asciiToLower (Target (cfg "imap://mail.example.com")) =
      Ok (server, port, protocol) /\
    peer_chain (allOk chain2) k <> [] /\
    is_Some (fs (snd r) !! bundleName server) /\
    (forall name, name ∈ certNames 0 (peer_chain (allOk chain2) k) ->
                  is_Some (fs (snd r) !! name)) /\
    last (out (snd r)) = Some (UsageInstructions (bundleName server) server).
Proof.
  split; [by vm_compute|].
  apply (success_leaves_all_files asciiToLower (allOk chain2)
           (cfg "imap://mail.example.com") withLeaf).
  by vm_compute.
Defined.

Lemma invocation_errors_example :
  let r := run (failingAt 1 chain2) "pop3://mail.example.com" world0 in
  let e := Wrap "failed to get certificates"
             (Wrap "failed to read server greeting" (EnvError 1)) in
  r = (Err e, snd r) /\
  ((exists e0, e = Wrap "invalid target" e0 /\ snd r = world0) \/
   (exists e0, e = Wrap "failed to get certificates" e0 /\ fs (snd r) = fs world0) \/
   (e = Errorf "no certificates found" /\ fs (snd r) = fs world0) \/
   (exists k, e = Wrap "failed to create bundle" (EnvError k)) \/
   (exists k, e = Wrap "failed to create individual certificates" (EnvError k))).
Proof.
  split; [by vm_compute|].
  apply (invocation_errors asciiToLower (failingAt 1 chain2)
           (cfg "pop3://mail.example.com") world0).
  by vm_compute.
Defined.

Lemma bundle_failure_spares_other_files_example :
  let r := run (failingAt 6 chain2) "pop3://mail.example.com" withLeaf in
  r = (Err (Wrap "failed to create bundle" (EnvError 6)), snd r) /\
  exists server port protocol,
    parseTarget asciiToLower (Target (cfg "pop3://mail.example.com")) =
      Ok (server, port, protocol) /\
    forall f, f <> bundleName server -> fs (snd r) !! f = fs withLeaf !! f.
Proof.
  split; [by vm_compute|].
  apply (bundle_failure_spares_other_files asciiToLower (failingAt 6 chain2)
           (cfg "pop3://mail.example.com") withLeaf (EnvError 6)).
  by vm_compute.
Defined.


Section NeverOverwritten.

Variable ToLower : string -> string.
Variable env : Env.

(** X25: an invocation never changes a file it did not create: whatever
    the environment does and however the invocation ends, every file
    that existed before it and is not the bundle has its contents
    afterwards. *)
Theorem existing_files_keep_contents config w server port protocol f old :
  parseTarget ToLower (Target config) = Ok (server, port, protocol) ->
  f <> bundleName server ->
  fs w !! f = Some old ->
  fs (snd (extractCertificates ToLower env config w)) !! f = Some old.
Proof.
  intros Hparse Hf Hold.
  rewrite (extractCertificates_keeps_existing ToLower env config _ _ _ Hparse w f Hf);
    [done|by eexists].
Qed.

End NeverOverwritten.

Lemma existing_files_keep_contents_example :
  (parseTarget asciiToLower (Target (cfg "mail.example.com:993")) =
     Ok ("mail.example.com", 993%Z, "https") /\
   "mail.example.com.crt" <> bundleName "mail.example.com" /\
   fs withLeaf !! "mail.example.com.crt" = Some "kept") /\
  fs (snd (run (failingAt 5 chain2) "mail.example.com:993" withLeaf))
    !! "mail.example.com.crt" = Some "kept".
Proof.
  split; [split_and!; [reflexivity|discriminate|by vm_compute]|].
  apply (existing_files_keep_contents asciiToLower (failingAt 5 chain2)
           (cfg "mail.example.com:993") withLeaf "mail.example.com" 993%Z "https").
  - reflexivity.
  - discriminate.
  - by vm_compute.
Defined.
